(** * The data-cleaning notebook, embedded in Rocq

    The program is [Data Cleaning/Data Cleaning.ipynb]: a pandas DataFrame
    [messy_df] is built from a dictionary of Python lists and is then cleaned
    by a short sequence of statements.  This file embeds the cells of that
    DataFrame, the pandas operations the statements call, the statements
    themselves and their sequential execution, and proves the properties of
    the cleaning steps.

    Numbers.  A cell holds a Python int, which is exact, or a float64.  A
    finite float64 is the rational number it denotes, and every float64
    operation rounds its exact result to the nearest float64 (ties to
    even) or overflows to an infinity.  A column of ints is an int64 (or
    uint64) column, whose arithmetic wraps around.  The sign of zero is
    not kept.

    Text.  A character of a [Str] cell is a code point below 256; on these
    the class [\d] of the regular expression is the ten ASCII digits.  The
    laws that read a number off the digits of a text are stated for ASCII
    text.

    Library.  pandas is taken as the 1.x releases of the notebook's time
    behave: an empty list gives a float64 column, the median of an object
    column converts its cells with [float], and an integer column is
    multiplied in its own dtype.

    Mutation.  The statements update [messy_df] in place, also those that
    call an [inplace=True] method on a selected column: the outputs recorded
    in the notebook show the DataFrame changed by them.  Here a statement
    maps the DataFrame before it to the DataFrame after it. *)

From Stdlib Require Import ZArith QArith Ascii String Lia Lqa.
From stdpp Require Import base list strings gmap sorting.

Open Scope Z_scope.

(** ** Cells *)

(** A float64 that is not NaN. *)
Inductive float64 : Type :=
  | Fin (q : Q)
  | PInf
  | NInf.

(** One cell of a column: [np.nan], a float, a Python [str], or an int (a
    Python [int], or an element of an int64 or uint64 column). *)
Inductive cell : Type :=
  | NaN
  | Num (x : float64)
  | Str (s : string)
  | Int (z : Z).

Definition isna (c : cell) : bool :=
  match c with NaN => true | _ => false end.

Definition is_str (c : cell) : bool :=
  match c with Str _ => true | _ => false end.

Definition is_int (c : cell) : bool :=
  match c with Int _ => true | _ => false end.

(** The float64 of a small whole number, such as [25.0]. *)
Definition of_int (z : Z) : float64 := Fin (inject_Z z).

(** ** Machine numbers *)

Definition INT64_MIN : Z := - 2 ^ 63.
Definition INT64_MAX : Z := 2 ^ 63 - 1.
Definition UINT64_MAX : Z := 2 ^ 64 - 1.

Definition in_int64 (z : Z) : bool := (INT64_MIN <=? z) && (z <=? INT64_MAX).
Definition in_uint64 (z : Z) : bool := (0 <=? z) && (z <=? UINT64_MAX).

(** Two's complement wrap-around of int64, uint64 and C's [int]. *)
Definition wrap_int64 (z : Z) : Z := (z + 2 ^ 63) mod 2 ^ 64 - 2 ^ 63.
Definition wrap_uint64 (z : Z) : Z := z mod 2 ^ 64.
Definition wrap_int32 (z : Z) : Z := (z + 2 ^ 31) mod 2 ^ 32 - 2 ^ 31.

(** [N / D] rounded to the nearest integer, ties to the even one. *)
Definition round_half_even (N D : Z) : Z :=
  let m := N / D in
  let r := N mod D in
  if 2 * r <? D then m
  else if D <? 2 * r then m + 1
  else if Z.even m then m else m + 1.

(** The [e] with [2^e <= n/d < 2^(e+1)], for positive [n]. *)
Definition binade (n : Z) (d : positive) : Z :=
  let e0 := Z.log2 n - Z.log2 (Zpos d) in
  if (if 0 <=? e0 then Zpos d * 2 ^ e0 <=? n else Zpos d <=? n * 2 ^ (- e0))
  then e0 else e0 - 1.

(** The positive [n/d] rounded to 53 significant bits, or to a multiple of
    [2^-1074] below the normal range. *)
Definition round_mag (n : Z) (d : positive) : Q :=
  let s := Z.max (binade n d - 52) (-1074) in
  if 0 <=? s
  then inject_Z (round_half_even n (Zpos d * 2 ^ s) * 2 ^ s)
  else Qred (Qmake (round_half_even (n * 2 ^ (- s)) (Zpos d)) (Z.to_pos (2 ^ (- s)))).

(** Rounding of an exact result to float64. *)
Definition round64 (q : Q) : float64 :=
  match Qnum q with
  | 0 => Fin 0
  | Zpos p =>
      let r := round_mag (Zpos p) (Qden q) in
      if Qle_bool (inject_Z (2 ^ 1024)) r then PInf else Fin r
  | Zneg p =>
      let r := round_mag (Zpos p) (Qden q) in
      if Qle_bool (inject_Z (2 ^ 1024)) r then NInf else Fin (- r)
  end.

(** The rational a finite float64 denotes; [0] for an infinity, which the
    parser tests for before it goes on. *)
Definition fin (x : float64) : Q :=
  match x with Fin q => q | _ => 0%Q end.

Definition is_inf (x : float64) : bool :=
  match x with Fin _ => false | _ => true end.

(** A Python int as a float64 ([float(z)]). *)
Definition float_of_int (z : Z) : float64 := round64 (inject_Z z).

(** ** Characters and the regular expression [[^\d.]] *)

Definition is_digit (c : ascii) : bool :=
  let n := nat_of_ascii c in (48 <=? n)%nat && (n <=? 57)%nat.

Definition digit_val (c : ascii) : Z := Z.of_nat (nat_of_ascii c) - 48.

Definition is_dot (c : ascii) : bool := bool_decide (c = "."%char).

(** The characters the pattern [[^\d.]] does NOT match: they survive
    [str.replace('[^\d.]', '', regex=True)]. *)
Definition kept (c : ascii) : bool := is_digit c || is_dot c.

(** [s.replace('[^\d.]', '')] on one Python string. *)
Fixpoint strip_non_numeric (s : string) : string :=
  match s with
  | EmptyString => EmptyString
  | String c s' =>
      if kept c then String c (strip_non_numeric s') else strip_non_numeric s'
  end.

(** C's [isspace] in the "C" locale, as the parser uses it. *)
Definition is_space (c : ascii) : bool :=
  let n := nat_of_ascii c in (n =? 32)%nat || ((9 <=? n)%nat && (n <=? 13)%nat).

Definition to_lower (c : ascii) : ascii :=
  let n := nat_of_ascii c in
  if (65 <=? n)%nat && (n <=? 90)%nat then ascii_of_nat (n + 32) else c.

Fixpoint lower (s : string) : string :=
  match s with
  | EmptyString => EmptyString
  | String c s' => String (to_lower c) (lower s')
  end.

(** A text of ASCII characters only. *)
Definition ascii_text (s : string) : bool :=
  forallb (fun c => (nat_of_ascii c <? 128)%nat) (list_ascii_of_string s).

(** ** pandas' string-to-float parser

    [pd.to_numeric] hands every [str] to [floatify], which runs the
    tokenizer's [precise_xstrtod] over the characters and accepts the result
    only when the whole string was consumed and no range error was raised.
    The scanner below follows that function: blanks, a sign, digits, a
    decimal point and digits, an exponent, the scaling by a power of ten,
    blanks.  It keeps 17 digits, computes in float64, and reports whether
    the text can be an integer ([maybe_int]). *)

Fixpoint skip_space (l : list ascii) : list ascii :=
  match l with
  | c :: l' => if is_space c then skip_space l' else l
  | [] => []
  end.

(** The optional sign: a minus sets [negative]; a minus or a plus is
    stepped over. *)
Definition read_sign (l : list ascii) : bool * list ascii :=
  match l with
  | c :: l' =>
      if bool_decide (c = "-"%char) then (true, l')
      else if bool_decide (c = "+"%char) then (false, l')
      else (false, l)
  | [] => (false, [])
  end.

(** [number * 10. + digit], in float64. *)
Definition push_digit (number : Q) (c : ascii) : Q :=
  fin (round64 (fin (round64 (number * 10)) + inject_Z (digit_val c))).

(** The digits before the point: the first 17 go into [number], each
    further one only raises [exponent]. *)
Fixpoint read_digits (number : Q) (num_digits : nat) (exponent : Z) (l : list ascii)
  : Q * nat * Z * list ascii :=
  match l with
  | c :: l' =>
      if is_digit c then
        if (num_digits <? 17)%nat
        then read_digits (push_digit number c) (S num_digits) exponent l'
        else read_digits number num_digits (exponent + 1) l'
      else (number, num_digits, exponent, l)
  | [] => (number, num_digits, exponent, [])
  end.

(** The digits behind the point: they go into [number] as long as fewer
    than 17 digits were kept, the rest is stepped over. *)
Fixpoint read_decimals (number : Q) (num_digits num_decimals : nat) (l : list ascii)
  : Q * nat * nat * list ascii :=
  match l with
  | c :: l' =>
      if is_digit c then
        if (num_digits <? 17)%nat
        then read_decimals (push_digit number c) (S num_digits) (S num_decimals) l'
        else read_decimals number num_digits num_decimals l'
      else (number, num_digits, num_decimals, l)
  | [] => (number, num_digits, num_decimals, [])
  end.

(** The digits of the exponent, at most 17 of them, in C's [int]. *)
Fixpoint read_exp_digits (n : Z) (num_digits : nat) (l : list ascii)
  : Z * nat * list ascii :=
  match l with
  | c :: l' =>
      if is_digit c && (num_digits <? 17)%nat
      then read_exp_digits (wrap_int32 (n * 10 + digit_val c)) (S num_digits) l'
      else (n, num_digits, l)
  | [] => (n, num_digits, [])
  end.

(** The exponent part: [e] or [E], a sign, digits.  The result tells
    whether the letter was seen.  Without a digit behind it the scanner
    steps one character back, which leaves the letter or the sign
    unconsumed. *)
Definition read_exponent (exponent : Z) (l : list ascii) : Z * bool * list ascii :=
  match l with
  | c :: l' =>
      if bool_decide (to_lower c = "e"%char) then
        let '(negative, l1) := read_sign l' in
        let '(n, num_digits, l2) := read_exp_digits 0 0%nat l1 in
        let exponent' := wrap_int32 (if negative then exponent - n else exponent + n) in
        if (num_digits =? 0)%nat
        then (exponent', true, if bool_decide (l1 = l') then l else l')
        else (exponent', true, l2)
      else (exponent, false, l)
  | [] => (exponent, false, [])
  end.

(** The table [e[k] = 1ek] of the scanner, [0 <= k <= 308]. *)
Definition pow10_64 (k : Z) : Q := fin (round64 (inject_Z (10 ^ k))).

(** The scaling of [number] by [10^exponent]; an infinity is a range
    error. *)
Definition scale10 (number : Q) (exponent : Z) : float64 :=
  if 308 <? exponent then PInf
  else if 0 <? exponent then round64 (number * pow10_64 exponent)
  else if exponent <? -308 then
    if exponent <? -616 then Fin 0
    else round64 (fin (round64 (number / pow10_64 (-308 - exponent))) / pow10_64 308)
  else round64 (number / pow10_64 (- exponent)).

Definition precise_xstrtod (l : list ascii) : option (Q * bool) :=
  let l := skip_space l in
  let '(negative, l) := read_sign l in
  let '(number, num_digits, exponent, l) := read_digits 0 0%nat 0 l in
  let '(number, num_digits, exponent, seen_point, l) :=
    match l with
    | c :: l' =>
        if is_dot c then
          let '(m, nd, k, l'') := read_decimals number num_digits 0%nat l' in
          (m, nd, exponent - Z.of_nat k, true, l'')
        else (number, num_digits, exponent, false, l)
    | [] => (number, num_digits, exponent, false, [])
    end in
  if (num_digits =? 0)%nat then None
  else
    let number := if negative then (- number)%Q else number in
    let '(exponent, seen_exp, l) := read_exponent exponent l in
    let x := scale10 number exponent in
    if is_inf x then None
    else
      match skip_space l with
      | [] => Some (fin x, negb seen_point && negb seen_exp)
      | _ :: _ => None
      end.

(** [floatify]: the scanner; when it fails, the spellings of infinity,
    compared without regard to case; otherwise [ValueError] ([None]
    here). *)
Definition floatify (s : string) : option (float64 * bool) :=
  match precise_xstrtod (list_ascii_of_string s) with
  | Some (q, maybe_int) => Some (Fin q, maybe_int)
  | None =>
      let w := lower s in
      if bool_decide (w = "inf") || bool_decide (w = "infinity")
         || bool_decide (w = "+inf") || bool_decide (w = "+infinity")
      then Some (PInf, false)
      else if bool_decide (w = "-inf") || bool_decide (w = "-infinity")
      then Some (NInf, false)
      else None
  end.

(** The number a string of decimal digits denotes, digit by position. *)
Fixpoint num_of (l : list ascii) : Z :=
  match l with
  | [] => 0
  | c :: l' => digit_val c * 10 ^ Z.of_nat (length l') + num_of l'
  end.

Fixpoint take_digits (l : list ascii) : list ascii :=
  match l with
  | c :: l' => if is_digit c then c :: take_digits l' else []
  | [] => []
  end.

(** Python's [int(s)] on a text the scanner took for an integer: blanks, a
    sign, digits, blanks. *)
Definition int_of_text (s : string) : Z :=
  let '(negative, l) := read_sign (skip_space (list_ascii_of_string s)) in
  let n := num_of (take_digits l) in
  if negative then - n else n.

(** ** [pd.to_numeric(..., errors='coerce')] *)

(** What the conversion makes of one cell, before the dtype of the result
    is known: nothing, a float, or an int together with its float. *)
Inductive parsed : Type :=
  | PNull
  | PFloat (x : float64)
  | PInt (z : Z) (fval : float64).

Definition parse_cell (c : cell) : parsed :=
  match c with
  | NaN => PNull
  | Num x => PFloat x
  | Int z => PInt z (float_of_int z)
  | Str s =>
      match floatify s with
      | Some (x, true) => PInt (int_of_text s) x
      | Some (x, false) => PFloat x
      | None => PNull
      end
  end.

(** An int that is negative; an int that only uint64 can hold; an int that
    neither int64 nor uint64 can hold. *)
Definition is_sint (p : parsed) : bool :=
  match p with PInt z _ => (INT64_MIN <=? z) && (z <? 0) | _ => false end.

Definition is_uint (p : parsed) : bool :=
  match p with PInt z _ => (INT64_MAX <? z) && (z <=? UINT64_MAX) | _ => false end.

Definition forces_float (p : parsed) : bool :=
  match p with
  | PNull | PFloat _ => true
  | PInt z _ => (z <? INT64_MIN) || (UINT64_MAX <? z)
  end.

(** The result is a float64 column as soon as one cell is missing, is a
    float or is an int out of range, or when negative ints meet ints above
    the int64 range. *)
Definition seen_float (ps : list parsed) : bool :=
  existsb forces_float ps || (existsb is_sint ps && existsb is_uint ps).

Definition as_float (p : parsed) : cell :=
  match p with
  | PNull => NaN
  | PFloat x => Num x
  | PInt _ fval => Num fval
  end.

Definition as_int (p : parsed) : cell :=
  match p with
  | PInt z _ => Int z
  | _ => NaN
  end.

(** [pd.to_numeric(..., errors='coerce')] on the cells of a column:
    numbers and NaN pass through, a string is parsed, and a string that
    does not parse becomes NaN instead of raising.  (On an int beyond the
    float64 range, where Python raises [OverflowError], the model gives an
    infinity.) *)
Definition to_numeric (l : list cell) : list cell :=
  let ps := parse_cell <$> l in
  if seen_float ps then as_float <$> ps else as_int <$> ps.

(** ** Python's [float(s)]

    NumPy converts the strings of an object column with Python's [float]
    when a median is taken: blanks around, underscores between digits, a
    sign, digits with a point and an exponent, or a spelling of infinity
    or of NaN; the value is rounded correctly. *)

Definition is_py_space (c : ascii) : bool :=
  let n := nat_of_ascii c in
  (n =? 32)%nat || ((9 <=? n)%nat && (n <=? 13)%nat)
  || ((28 <=? n)%nat && (n <=? 31)%nat) || (n =? 133)%nat || (n =? 160)%nat.

Fixpoint skip_py_space (l : list ascii) : list ascii :=
  match l with
  | c :: l' => if is_py_space c then skip_py_space l' else l
  | [] => []
  end.

Definition strip_py_space (l : list ascii) : list ascii :=
  rev (skip_py_space (rev (skip_py_space l))).

Definition is_underscore (c : ascii) : bool := bool_decide (c = "_"%char).

(** An underscore is dropped when it stands between two digits; any other
    underscore is an error. *)
Fixpoint drop_underscores (prev_digit prev_underscore : bool) (l : list ascii)
  : option (list ascii) :=
  match l with
  | [] => if prev_underscore then None else Some []
  | c :: l' =>
      if is_underscore c then
        if prev_digit then drop_underscores false true l' else None
      else if prev_underscore && negb (is_digit c) then None
      else cons c <$> drop_underscores (is_digit c) false l'
  end.

Definition chars_of (w : string) : list ascii := list_ascii_of_string w.

(** A prefix test without regard to case; the rest of the text. *)
Fixpoint match_word (w l : list ascii) : option (list ascii) :=
  match w, l with
  | [], _ => Some l
  | a :: w', c :: l' => if bool_decide (to_lower c = a) then match_word w' l' else None
  | _ :: _, [] => None
  end.

(** [inf], [infinity] or [nan] behind the sign: an infinity, or NaN
    ([Some None]). *)
Definition parse_inf_or_nan (negative : bool) (l : list ascii) : option (option float64) :=
  match match_word (chars_of "inf") l with
  | Some r =>
      let r' := match match_word (chars_of "inity") r with Some r'' => r'' | None => r end in
      match r' with
      | [] => Some (Some (if negative then NInf else PInf))
      | _ :: _ => None
      end
  | None =>
      match match_word (chars_of "nan") l with
      | Some [] => Some None
      | _ => None
      end
  end.

(** A decimal numeral as the pair of its digits read as an integer and its
    exponent of ten; [None] when the text is not a numeral. *)
Definition parse_decimal (l : list ascii) : option (Z * Z) :=
  let ip := take_digits l in
  let l1 := drop (length ip) l in
  let '(fp, l2) :=
    match l1 with
    | c :: l' => if is_dot c then (take_digits l', drop (length (take_digits l')) l') else ([], l1)
    | [] => ([], [])
    end in
  if (length ip + length fp =? 0)%nat then None
  else
    let m := num_of (ip ++ fp) in
    let frac := Z.of_nat (length fp) in
    match l2 with
    | [] => Some (m, - frac)
    | c :: l' =>
        if bool_decide (to_lower c = "e"%char) then
          let '(negative, l3) := read_sign l' in
          let ds := take_digits l3 in
          if (length ds =? 0)%nat then None
          else
            match drop (length ds) l3 with
            | [] => Some (m, (if negative then - num_of ds else num_of ds) - frac)
            | _ :: _ => None
            end
        else None
    end.

(** [m * 10^e] rounded to float64; far out of range it is an infinity or
    zero without the power being computed. *)
Definition decimal_to_float (negative : bool) (m e : Z) : float64 :=
  if m =? 0 then Fin 0
  else if 400 <? e then (if negative then NInf else PInf)
  else if e + Z.log2 m <? -1200 then Fin 0
  else
    let q := if 0 <=? e then inject_Z (m * 10 ^ e) else Qmake m (Z.to_pos (10 ^ (- e))) in
    round64 (if negative then (- q)%Q else q).

(** [float(s)]: [None] for [ValueError], [Some None] for NaN. *)
Definition py_float (s : string) : option (option float64) :=
  match drop_underscores false false (strip_py_space (list_ascii_of_string s)) with
  | None => None
  | Some l =>
      let '(negative, l') := read_sign l in
      match parse_decimal l' with
      | Some (m, e) => Some (Some (decimal_to_float negative m e))
      | None => parse_inf_or_nan negative l'
      end
  end.

(** ** float64 arithmetic and order *)

(** [a + b]; the two infinities of opposite sign add up to NaN. *)
Definition fadd (a b : float64) : cell :=
  match a, b with
  | Fin x, Fin y => Num (round64 (x + y))
  | PInf, NInf | NInf, PInf => NaN
  | PInf, _ | _, PInf => Num PInf
  | NInf, _ | _, NInf => Num NInf
  end.

Definition fhalf (x : float64) : float64 :=
  match x with
  | Fin q => round64 (q / 2)
  | PInf => PInf
  | NInf => NInf
  end.

(** [(a + b) / 2], the mean of two values: the sum first, which can
    overflow, then the half. *)
Definition favg (a b : float64) : cell :=
  match fadd a b with
  | Num s => Num (fhalf s)
  | c => c
  end.

(** [x * k] for a Python int [k], which is made a float first; infinity
    times zero is NaN. *)
Definition fmul (x : float64) (k : Z) : cell :=
  match x, float_of_int k with
  | Fin q, Fin kq => Num (round64 (q * kq))
  | Fin q, _ =>
      if Qeq_bool q 0 then NaN
      else Num (if Bool.eqb (Qle_bool 0 q) (0 <? k) then PInf else NInf)
  | PInf, _ => if 0 <? k then Num PInf else if k <? 0 then Num NInf else NaN
  | NInf, _ => if 0 <? k then Num NInf else if k <? 0 then Num PInf else NaN
  end.

Definition fleb (a b : float64) : bool :=
  match a, b with
  | NInf, _ => true
  | _, PInf => true
  | Fin x, Fin y => Qle_bool x y
  | _, _ => false
  end.

Definition fle (a b : float64) : Prop := fleb a b = true.

#[global] Instance fle_dec (a b : float64) : Decision (fle a b).
Proof. unfold fle. apply _. Defined.

(** ** Column operations *)

(** The float a cell counts as when a median is taken: none for NaN, the
    number itself, the float of an int, and for a string what [float]
    makes of it (none when that is NaN). *)
Definition number_of (c : cell) : option float64 :=
  match c with
  | NaN => None
  | Num x => Some x
  | Int z => Some (float_of_int z)
  | Str s =>
      match py_float s with
      | Some (Some x) => Some x
      | _ => None
      end
  end.

(** The non-missing numbers of a column. *)
Definition dropna (l : list cell) : list float64 := omap number_of l.

(** A cell [float] can convert: every cell but a string that is no
    numeral. *)
Definition convertible (c : cell) : bool :=
  match c with
  | Str s => match py_float s with Some _ => true | None => false end
  | _ => true
  end.

(** [Series.median()]: NaN is skipped; the middle value of the sorted rest,
    or the mean of the two middle values; NaN when nothing is left. *)
Definition median (l : list cell) : cell :=
  let s := merge_sort fle (dropna l) in
  let n := length s in
  match n with
  | O => NaN
  | _ =>
      if Nat.odd n then from_option Num NaN (s !! (n / 2)%nat)
      else
        match s !! (n / 2 - 1)%nat, s !! (n / 2)%nat with
        | Some a, Some b => favg a b
        | _, _ => NaN
        end
  end.

(** [fillna(value)] on one cell. *)
Definition fillna_cell (value c : cell) : cell :=
  if isna c then value else c.

Definition fillna (value : cell) (l : list cell) : list cell :=
  fillna_cell value <$> l.

(** [Series.replace(to_replace, value)] with a string [to_replace]. *)
Definition replace_cell (to_replace : string) (value c : cell) : cell :=
  match c with
  | Str s => if bool_decide (s = to_replace) then value else c
  | _ => c
  end.

Definition replace (to_replace : string) (value : cell) (l : list cell) : list cell :=
  replace_cell to_replace value <$> l.

(** [.str.replace('[^\d.]', '', regex=True)] on one cell: the [.str]
    methods answer NaN for a cell that is not a string. *)
Definition str_replace_cell (c : cell) : cell :=
  match c with
  | Str s => Str (strip_non_numeric s)
  | _ => NaN
  end.

Definition str_replace (l : list cell) : list cell := str_replace_cell <$> l.

(** Python's [s * k] on a string: [k] copies, none when [k <= 0]. *)
Definition str_mul (s : string) (k : Z) : string :=
  Nat.iter (Z.to_nat k) (String.append s) EmptyString.

(** How the cells of a column are stored: as Python objects, as float64,
    as int64 or as uint64. *)
Inductive kind : Type := KObject | KFloat | KInt64 | KUInt64.

(** A numeric column is an integer column when every cell of it is an
    int, a uint64 column when one of them is above the int64 range, and a
    float64 column otherwise; an int in a float64 column stands for its
    float. *)
Definition numeric_kind (l : list cell) : kind :=
  match l with
  | [] => KFloat
  | _ =>
      if forallb is_int l then
        if forallb (fun c => match c with Int z => z <=? INT64_MAX | _ => true end) l
        then KInt64 else KUInt64
      else KFloat
  end.

(** [c * k] on one cell, for a Python int [k]: exact on a Python int,
    wrapped around in an integer column, rounded on a float.  (The factor
    is taken to fit the integer column; for another factor NumPy leaves
    the integer dtype, which is modelled as a float product.) *)
Definition mul_cell (kd : kind) (k : Z) (c : cell) : cell :=
  match c with
  | NaN => NaN
  | Num x => fmul x k
  | Str s => Str (str_mul s k)
  | Int z =>
      match kd with
      | KObject => Int (z * k)
      | KInt64 => if in_int64 k then Int (wrap_int64 (z * k)) else fmul (float_of_int z) k
      | KUInt64 => if in_uint64 k then Int (wrap_uint64 (z * k)) else fmul (float_of_int z) k
      | KFloat => fmul (float_of_int z) k
      end
  end.

(** ** Series and DataFrame *)

(** The dtype of a column: [object], or a numeric dtype, for which
    [Float64] stands: float64, or int64 or uint64 when the cells are ints
    (see [numeric_kind]). *)
Inductive dtype : Type := Object | Float64.

Record Series : Type := mkSeries { dty : dtype; values : list cell }.

Definition kind_of (s : Series) : kind :=
  match dty s with
  | Object => KObject
  | Float64 => numeric_kind (values s)
  end.

(** A DataFrame: the length of its index and its columns in order. *)
Record DataFrame : Type :=
  mkDataFrame { nrows : nat; columns : list (string * Series) }.

(** Every column holds one cell per row. *)
Definition uniform (df : DataFrame) : Prop :=
  Forall (fun c : string * Series => length (values c.2) = nrows df) (columns df).

(** Column labels are distinct, as the keys of the dictionary a DataFrame
    is built from are. *)
Definition unique_labels (df : DataFrame) : Prop := NoDup (columns df).*1.

(** An int that no integer dtype holds. *)
Definition is_big_int (c : cell) : bool :=
  match c with Int z => negb (in_int64 z) && negb (in_uint64 z) | _ => false end.

Definition is_negative_int (c : cell) : bool :=
  match c with Int z => z <? 0 | _ => false end.

Definition is_uint_only (c : cell) : bool :=
  match c with Int z => INT64_MAX <? z | _ => false end.

(** The dtype pandas infers for a Python list: [object] as soon as a
    string occurs, or an int that no integer dtype holds, or negative ints
    together with ints above the int64 range; numeric otherwise, also for
    the empty list. *)
Definition infer_dtype (l : list cell) : dtype :=
  if existsb is_str l || existsb is_big_int l
     || (forallb is_int l && existsb is_negative_int l && existsb is_uint_only l)
  then Object else Float64.

(** [pd.DataFrame(data)] for a dictionary of equally long lists. *)
Definition DataFrame_of_dict (data : list (string * list cell)) : DataFrame :=
  {| nrows := from_option (fun c => length c.2) 0%nat (head data);
     columns := (fun c => (c.1, mkSeries (infer_dtype c.2) c.2)) <$> data |}.

(** ** Exceptions *)

Inductive exn : Type :=
  | KeyError (label : string)
  | AttributeError
  | TypeError.

Inductive result (A : Type) : Type :=
  | Ok (a : A)
  | Raise (e : exn).
Arguments Ok {A} a.
Arguments Raise {A} e.

#[global] Instance result_ret : MRet result := fun A a => Ok a.
#[global] Instance result_bind : MBind result := fun A B f m =>
  match m with
  | Ok a => f a
  | Raise e => Raise e
  end.

(** [df[label]]: the column, or [KeyError]. *)
Definition getitem (label : string) (df : DataFrame) : result Series :=
  match list_find (fun c : string * Series => c.1 = label) (columns df) with
  | Some (_, c) => Ok c.2
  | None => Raise (KeyError label)
  end.

(** The column [label] replaced, where it stands, by [s]. *)
Definition set_column (label : string) (s : Series) (df : DataFrame) : DataFrame :=
  {| nrows := nrows df;
     columns := (fun c : string * Series =>
                   if bool_decide (c.1 = label) then (c.1, s) else c) <$> columns df |}.

(** ** The statements of the notebook

    Each cleaning statement of the notebook is a function from the
    DataFrame before it to the DataFrame after it, or to the exception it
    raises.  The column labels and the literals of the notebook are
    arguments, so that a statement can be run on any table. *)

(** [pd.to_numeric(s.replace(old, new), errors='coerce')] on the cells of a
    column: the literal override first, the parse after it. *)
Definition coerce_values (old : string) (new : cell) (l : list cell) : list cell :=
  to_numeric (replace old new l).

(** [df[col] = pd.to_numeric(df[col].replace(old, new), errors='coerce')] *)
Definition coerce_numeric (col old : string) (new : cell) (df : DataFrame)
  : result DataFrame :=
  s ← getitem col df;
  mret (set_column col (mkSeries Float64 (coerce_values old new (values s))) df).

(** [s.fillna(s.median())] on the cells of a column. *)
Definition impute_values (l : list cell) : list cell := fillna (median l) l.

(** [df[col].fillna(df[col].median(), inplace=True)].  The median of a
    column that holds a string which [float] cannot convert raises
    [TypeError]. *)
Definition impute_missing (col : string) (df : DataFrame) : result DataFrame :=
  s ← getitem col df;
  if forallb convertible (values s)
  then mret (set_column col (mkSeries (dty s) (impute_values (values s))) df)
  else Raise TypeError.

(** [DataFrame.fillna(d)] on one column: a column named in [d] has its
    missing cells filled with the string given for it; filling turns the
    column into an [object] column.  Labels of [d] that name no column are
    skipped. *)
Definition fillna_column (d : gmap string string) (c : string * Series) : string * Series :=
  match d !! c.1 with
  | Some v =>
      if existsb isna (values c.2)
      then (c.1, mkSeries Object (fillna (Str v) (values c.2)))
      else c
  | None => c
  end.

(** [df.fillna(d, inplace=True)] *)
Definition fill_categorical (d : gmap string string) (df : DataFrame) : result DataFrame :=
  mret {| nrows := nrows df; columns := fillna_column d <$> columns df |}.

(** The [.str] accessor exists on an [object] column whose non-missing
    cells are not all numbers; elsewhere it raises [AttributeError]. *)
Definition has_str_accessor (s : Series) : bool :=
  match dty s with
  | Object => forallb isna (values s) || existsb is_str (values s)
  | Float64 => false
  end.

(** [df[col] = pd.to_numeric(df[col].str.replace('[^\d.]', '', regex=True), errors='coerce')] *)
Definition strip_to_numeric (col : string) (df : DataFrame) : result DataFrame :=
  s ← getitem col df;
  if has_str_accessor s
  then mret (set_column col (mkSeries Float64 (to_numeric (str_replace (values s)))) df)
  else Raise AttributeError.

(** [df[col] *= k] *)
Definition imul (col : string) (k : Z) (df : DataFrame) : result DataFrame :=
  s ← getitem col df;
  mret (set_column col (mkSeries (dty s) (mul_cell (kind_of s) k <$> values s)) df).

(** [df.drop(col, axis=1, inplace=True)]: [KeyError] when no column has
    that label. *)
Definition drop_column (col : string) (df : DataFrame) : result DataFrame :=
  if bool_decide (col ∈ (columns df).*1)
  then mret {| nrows := nrows df;
               columns := filter (fun c : string * Series => c.1 ≠ col) (columns df) |}
  else Raise (KeyError col).

(** [df[col].replace(old, new, inplace=True)] *)
Definition relabel_category (col old new : string) (df : DataFrame) : result DataFrame :=
  s ← getitem col df;
  mret (set_column col (mkSeries (dty s) (replace old (Str new) (values s))) df).

(** The cleaning statements as data, one constructor per statement. *)
Inductive stmt : Type :=
  | CoerceNumeric (col old : string) (new : cell)
  | ImputeMissing (col : string)
  | FillCategorical (d : gmap string string)
  | StripToNumeric (col : string)
  | Imul (col : string) (k : Z)
  | DropColumn (col : string)
  | RelabelCategory (col old new : string).

Definition exec (st : stmt) (df : DataFrame) : result DataFrame :=
  match st with
  | CoerceNumeric col old new => coerce_numeric col old new df
  | ImputeMissing col => impute_missing col df
  | FillCategorical d => fill_categorical d df
  | StripToNumeric col => strip_to_numeric col df
  | Imul col k => imul col k df
  | DropColumn col => drop_column col df
  | RelabelCategory col old new => relabel_category col old new df
  end.

(** Statements run one after the other; the first exception ends the run. *)
Fixpoint run (steps : list stmt) (df : DataFrame) : result DataFrame :=
  match steps with
  | [] => mret df
  | st :: steps' => df' ← exec st df; run steps' df'
  end.

(** The two statements of the income cell. *)
Definition normalize_numeric_text (col : string) (k : Z) : list stmt :=
  [StripToNumeric col; Imul col k].

(** The income cell on the cells of one column, with the notebook's
    constant 1000. *)
Definition normalize_income (l : list cell) : list cell :=
  let t := to_numeric (str_replace l) in
  mul_cell (numeric_kind t) 1000 <$> t.

(** ** The notebook *)

Definition messy_data : list (string * list cell) :=
  [ ("name", [Str "Alice"; Str "Bob"; Str "Charlie"; Str "David"; Str "Emily";
              Str "Frank"; Str "Grace"]);
    ("age", [Int 25; Int 30; NaN; Str "thirty-five"; Int 22; Int 45; Str "unknown"]);
    ("gender", [Str "Female"; Str "Male"; Str "Male"; Str "Male"; Str "Female";
                Str "Other"; Str "Male"]);
    ("country", [Str "USA"; Str "Canada"; Str "Mexico"; Str "USA"; Str "Australia";
                 Str "Unknown"; Str "UK"]);
    ("monthly_salary", [Int 50000; Int 75000; Str "60k"; NaN; Int 40000; Str "unknown";
                        Int 80000]);
    ("annual_income", [Str "60,000"; Str "90,000"; NaN; Str "100,000"; Str "40k";
                       Str "75k"; Str "unknown"]) ].

Definition messy_df : DataFrame := DataFrame_of_dict messy_data.

Definition fill_defaults : gmap string string :=
  <["country" := "Unknown"]> (<["gender" := "Other"]> ∅).

(** The cleaning statements in the order of the cells. *)
Definition notebook : list stmt :=
  [ CoerceNumeric "age" "thirty-five" (Int 35);
    ImputeMissing "age";
    FillCategorical fill_defaults;
    StripToNumeric "annual_income";
    Imul "annual_income" 1000;
    DropColumn "monthly_salary";
    RelabelCategory "gender" "Other" "Non-binary" ].

(** The lines of a cell: a cleaning statement, or [print(messy_df)], the
    notebook's only report of what a cell did. *)
Inductive line : Type :=
  | Stmt (st : stmt)
  | PrintFrame.

(** The lines of a cell run one after the other: the DataFrames printed so
    far, and the DataFrame at the end or the exception that ended the
    run. *)
Fixpoint run_lines (ls : list line) (df : DataFrame) : list DataFrame * result DataFrame :=
  match ls with
  | [] => ([], Ok df)
  | Stmt st :: ls' =>
      match exec st df with
      | Ok df' => run_lines ls' df'
      | Raise e => ([], Raise e)
      end
  | PrintFrame :: ls' =>
      let '(out, r) := run_lines ls' df in (df :: out, r)
  end.

(** The three cleaning cells of the notebook. *)
Definition cell_age : list line :=
  [ Stmt (CoerceNumeric "age" "thirty-five" (Int 35));
    Stmt (ImputeMissing "age");
    Stmt (FillCategorical fill_defaults);
    PrintFrame ].

Definition cell_income : list line :=
  [ Stmt (StripToNumeric "annual_income");
    Stmt (Imul "annual_income" 1000);
    PrintFrame ].

Definition cell_drop : list line :=
  [ Stmt (DropColumn "monthly_salary");
    Stmt (RelabelCategory "gender" "Other" "Non-binary");
    PrintFrame ].

(** The values of a column, for reading results. *)
Definition column_values (label : string) (df : DataFrame) : option (list cell) :=
  match getitem label df with
  | Ok s => Some (values s)
  | Raise _ => None
  end.

(** ** Notions used to state the properties *)


Definition has_digit (s : string) : bool :=
  existsb is_digit (list_ascii_of_string s).

Definition count_dots (s : string) : nat :=
  length (filter (fun c => is_dot c = true) (list_ascii_of_string s)).

Definition count_digits (s : string) : nat :=
  length (filter (fun c => is_digit c = true) (list_ascii_of_string s)).

(** The digits of a text read as one integer. *)
Definition digits_value (s : string) : Z :=
  num_of (filter (fun c => is_digit c = true) (list_ascii_of_string s)).

(** [m] is a median of [vs]: NaN for no value at all; otherwise, in some
    ascending arrangement of the values, the middle one or the mean of the
    two middle ones. *)
Definition is_median (vs : list float64) (m : cell) : Prop :=
  match vs with
  | [] => m = NaN
  | _ =>
      exists s, Permutation s vs /\ Sorted fle s /\
        let n := length s in
        if Nat.odd n
        then Some m = Num <$> s !! (n / 2)%nat
        else exists a b, s !! (n / 2 - 1)%nat = Some a /\ s !! (n / 2)%nat = Some b
                         /\ m = favg a b
  end.

(** What the notebook makes of one gender cell: the default for a missing
    cell first, the relabelling after it. *)
Definition final_gender (c : cell) : cell :=
  replace_cell "Other" (Str "Non-binary") (fillna_cell (Str "Other") c).

(** A small table with a missing gender, on which the notebook runs. *)
Definition gender_sample : DataFrame :=
  DataFrame_of_dict
    [ ("age", [Num (of_int 25); Str "unknown"; NaN]);
      ("gender", [NaN; Str "Other"; Str "Male"]);
      ("monthly_salary", [NaN; NaN; Str "60k"]);
      ("annual_income", [Str "60,000"; NaN; Str "40k"]) ].

(** The statements that work on one named column and keep all columns:
    every statement but the drop and the dictionary fill. *)
Definition rewrites_column (col : string) (df df' : DataFrame) : Prop :=
  (exists old new, coerce_numeric col old new df = Ok df')
  \/ impute_missing col df = Ok df'
  \/ strip_to_numeric col df = Ok df'
  \/ (exists k, imul col k df = Ok df')
  \/ (exists old new, relabel_category col old new df = Ok df').

(** What follows the first decimal point of a text. *)
Fixpoint after_dot (l : list ascii) : list ascii :=
  match l with
  | c :: l' => if is_dot c then l' else after_dot l'
  | [] => []
  end.

(** The number of digits behind the first decimal point. *)
Definition decimals (s : string) : nat :=
  length (filter (fun c => is_digit c = true) (after_dot (list_ascii_of_string s))).



(** The sum of floats, from left to right. *)
Definition fsum (vs : list float64) : cell :=
  foldl (fun acc v => match acc with Num a => fadd a v | _ => NaN end) (Num (Fin 0)) vs.

(** The mean of the non-missing values of a column: the statistic of the
    mean strategy of the specification, which the notebook does not
    have. *)
Definition mean (l : list cell) : cell :=
  match dropna l with
  | [] => NaN
  | vs =>
      match fsum vs with
      | Num (Fin q) => Num (round64 (q / inject_Z (Z.of_nat (length vs))))
      | c => c
      end
  end.




(** A float that is not negative: a finite one from zero on, or the
    positive infinity. *)
Definition not_negative (x : float64) : Prop :=
  match x with
  | Fin q => (0 <= q)%Q
  | PInf => True
  | NInf => False
  end.

(** A cell that is missing, an int, or a float that is not negative. *)
Definition missing_or_int_or_nonneg (c : cell) : Prop :=
  match c with
  | NaN => True
  | Int _ => True
  | Num x => not_negative x
  | Str _ => False
  end.

(** * Properties *)

Example notebook_output :
  (fun r => match r with
            | Ok df => Some ((fun c : string * Series => (c.1, values c.2)) <$> columns df)
            | Raise _ => None end) (run notebook messy_df)
  = Some
  [ ("name", [Str "Alice"; Str "Bob"; Str "Charlie"; Str "David"; Str "Emily";
              Str "Frank"; Str "Grace"]);
    ("age", [Num (Fin 25); Num (Fin 30); Num (Fin 30); Num (Fin 35);
             Num (Fin 22); Num (Fin 45); Num (Fin 30)]);
    ("gender", [Str "Female"; Str "Male"; Str "Male"; Str "Male"; Str "Female";
                Str "Non-binary"; Str "Male"]);
    ("country", [Str "USA"; Str "Canada"; Str "Mexico"; Str "USA"; Str "Australia";
                 Str "Unknown"; Str "UK"]);
    ("annual_income", [Num (Fin 60000000); Num (Fin 90000000); NaN; Num (Fin 100000000);
                       Num (Fin 40000); Num (Fin 75000); NaN]) ].
Proof. vm_compute. reflexivity. Qed.

(** What the three cleaning cells print: the table after each cell. *)
Example notebook_prints :
  run_lines (cell_age ++ cell_income ++ cell_drop) messy_df
  = (match run_lines cell_age messy_df with
     | (out1, Ok df1) =>
         match run_lines cell_income df1 with
         | (out2, Ok df2) => out1 ++ out2 ++ (run_lines cell_drop df2).1
         | (out2, Raise _) => out1 ++ out2
         end
     | (out1, Raise _) => out1
     end, run notebook messy_df)
  /\ (column_values "annual_income" <$>
        (run_lines (cell_age ++ cell_income ++ cell_drop) messy_df).1)
     = [ Some [Str "60,000"; Str "90,000"; NaN; Str "100,000"; Str "40k"; Str "75k";
               Str "unknown"];
         Some [Num (Fin 60000000); Num (Fin 90000000); NaN; Num (Fin 100000000);
               Num (Fin 40000); Num (Fin 75000); NaN];
         Some [Num (Fin 60000000); Num (Fin 90000000); NaN; Num (Fin 100000000);
               Num (Fin 40000); Num (Fin 75000); NaN] ]
  /\ (column_values "gender" <$>
        (run_lines (cell_age ++ cell_income ++ cell_drop) messy_df).1)
     = [ Some [Str "Female"; Str "Male"; Str "Male"; Str "Male"; Str "Female"; Str "Other";
               Str "Male"];
         Some [Str "Female"; Str "Male"; Str "Male"; Str "Male"; Str "Female"; Str "Other";
               Str "Male"];
         Some [Str "Female"; Str "Male"; Str "Male"; Str "Male"; Str "Female";
               Str "Non-binary"; Str "Male"] ].
Proof. repeat split; vm_compute; reflexivity. Qed.

(** The conversion on texts of every kind: an all-int column stays an
    integer column; one missing cell makes the column a float64 column;
    17 digits are kept; a value beyond the float64 range does not parse. *)
Example to_numeric_samples :
  to_numeric [Str "25"; Str " -7 "; Int 35] = [Int 25; Int (-7); Int 35]
  /\ to_numeric [Str "25"; Str " -1.50e2 "; Str "5."; Str ".5"; Str "."; Str "";
                 Str "1.2.3"; Str "5e"; Str "-Inf"; Str "unknown"; NaN; Int 7;
                 Str "0.1"; Str "1e400"; Str "12345678901234567890"]
     = [Num (Fin 25); Num (Fin (-150)); Num (Fin 5); Num (Fin (1 # 2)); NaN; NaN;
        NaN; NaN; Num NInf; NaN; NaN; Num (Fin 7);
        Num (Fin (3602879701896397 # 36028797018963968)); NaN;
        Num (Fin 12345678901234567168)].
Proof. split; vm_compute; reflexivity. Qed.

(** Rounding to float64 on known values: a tenth, ten to the 23, a tie,
    an overflow and a subnormal. *)
Example round64_samples :
  round64 (1 # 10) = Fin (3602879701896397 # 36028797018963968)
  /\ round64 (inject_Z (10 ^ 23)) = Fin 99999999999999991611392
  /\ round64 (inject_Z (2 ^ 53 + 1)) = Fin 9007199254740992
  /\ round64 (inject_Z (2 ^ 53 + 3)) = Fin 9007199254740996
  /\ round64 (inject_Z (2 * 10 ^ 308)) = PInf
  /\ round64 (-55 # 2) = Fin (-55 # 2).
Proof. repeat split; vm_compute; reflexivity. Qed.

(** ** The result monad *)

Lemma bind_Ok {A B} (f : A -> result B) (a : A) : (Ok a ≫= f) = f a.
Proof. reflexivity. Qed.

Lemma bind_Raise {A B} (f : A -> result B) (e : exn) : (Raise e ≫= f) = Raise e.
Proof. reflexivity. Qed.

Lemma bind_Ok_inv {A B} (f : A -> result B) (m : result A) (b : B) :
  (m ≫= f) = Ok b -> exists a, m = Ok a /\ f a = Ok b.
Proof. destruct m as [a|e]; [eauto | discriminate]. Qed.

Ltac inv_bind H :=
  let a := fresh "a" in
  let Ha := fresh "Ha" in
  apply bind_Ok_inv in H; destruct H as (a & Ha & H).

(** ** C7: filling missing labels twice *)

Lemma fillna_no_missing (v : cell) (l : list cell) :
  isna v = false -> existsb isna (fillna v l) = false.
Proof.
  intros Hv. induction l as [|c l IH]; [reflexivity|].
  simpl. rewrite IH, orb_false_r. unfold fillna_cell.
  destruct (isna c) eqn:Hc; [exact Hv | exact Hc].
Qed.

Lemma fillna_column_idemp (d : gmap string string) (c : string * Series) :
  fillna_column d (fillna_column d c) = fillna_column d c.
Proof.
  destruct c as [lbl s]. unfold fillna_column. simpl.
  destruct (d !! lbl) as [v|] eqn:Hd; simpl; [|by rewrite Hd].
  destruct (existsb isna (values s)) eqn:Hna; simpl; rewrite Hd.
  - by rewrite fillna_no_missing.
  - by rewrite Hna.
Qed.

(** C7.  Filling the missing cells of columns with default labels is
    idempotent: on every DataFrame, and for every dictionary of defaults
    (such as the one that sends a column to "Unknown"), the statement
    succeeds, and running it again on its own result gives that result
    again; after the first run a column named in the dictionary has no
    missing cell left to fill. *)
Theorem C7_fill_categorical_idempotent :
  forall (d : gmap string string) (df : DataFrame),
    exists df1,
      fill_categorical d df = Ok df1
      /\ fill_categorical d df1 = Ok df1
      /\ (fill_categorical d df ≫= fill_categorical d) = fill_categorical d df
      /\ forall col l, is_Some (d !! col) -> column_values col df1 = Some l ->
                       existsb isna l = false.
Proof.
  intros d df. eexists. split; [reflexivity|].
  assert (Hidem : fill_categorical d
            {| nrows := nrows df; columns := fillna_column d <$> columns df |}
          = Ok {| nrows := nrows df; columns := fillna_column d <$> columns df |}).
  { unfold fill_categorical, mret, result_ret. simpl. do 2 f_equal.
    rewrite <- list_fmap_compose.
    apply list_fmap_ext. intros i c _. simpl. apply fillna_column_idemp. }
  split; [exact Hidem|]. split; [exact Hidem|].
  intros col l [v Hv]. unfold column_values, getitem. simpl.
  destruct (list_find _ _) as [[i [lbl s]]|] eqn:Hf; [|discriminate].
  intros [= <-]. apply list_find_Some in Hf as (Hi & Hlbl & _).
  simpl in Hlbl. subst lbl.
  rewrite list_lookup_fmap in Hi.
  destruct (columns df !! i) as [[lbl s0]|] eqn:Hc; [|discriminate].
  simpl in Hi. injection Hi as Hi.
  unfold fillna_column in Hi. simpl in Hi.
  destruct (d !! lbl) as [w|] eqn:Hd.
  - destruct (existsb isna (values s0)) eqn:Hna.
    + inversion Hi. simpl. by apply fillna_no_missing.
    + inversion Hi. subst. exact Hna.
  - inversion Hi. subst. congruence.
Qed.

Lemma C7_fill_categorical_idempotent_witness :
  exists df1,
    fill_categorical {["country" := "Unknown"]}
      (DataFrame_of_dict [("country", [Str "USA"; NaN])]) = Ok df1
    /\ fill_categorical {["country" := "Unknown"]} df1 = Ok df1
    /\ column_values "country" df1 = Some [Str "USA"; Str "Unknown"].
Proof.
  destruct (C7_fill_categorical_idempotent {["country" := "Unknown"]}
              (DataFrame_of_dict [("country", [Str "USA"; NaN])]))
    as (df1 & H1 & H2 & _ & _).
  exists df1. split; [exact H1|]. split; [exact H2|].
  vm_compute in H1. injection H1 as <-. vm_compute. reflexivity.
Defined.

(** ** Columns of a DataFrame *)

Lemma getitem_nil (label : string) (n : nat) :
  getitem label (mkDataFrame n []) = Raise (KeyError label).
Proof. reflexivity. Qed.

Lemma getitem_cons (label l0 : string) (s0 : Series) (n : nat) cs :
  getitem label (mkDataFrame n ((l0, s0) :: cs)) =
    if bool_decide (l0 = label) then Ok s0 else getitem label (mkDataFrame n cs).
Proof.
  unfold getitem. simpl. case_decide as H; simpl in H.
  - rewrite bool_decide_eq_true_2 by done. reflexivity.
  - rewrite bool_decide_eq_false_2 by done.
    destruct (list_find _ cs) as [[i [l1 s1]]|]; reflexivity.
Qed.

Lemma getitem_nrows (label : string) (n m : nat) cs :
  getitem label (mkDataFrame n cs) = getitem label (mkDataFrame m cs).
Proof. reflexivity. Qed.

Lemma getitem_elem (label : string) (df : DataFrame) (s : Series) :
  getitem label df = Ok s -> (label, s) ∈ columns df.
Proof.
  destruct df as [n cs]. simpl. induction cs as [|[l0 s0] cs IH].
  - discriminate.
  - rewrite getitem_cons. case_bool_decide as H.
    + intros [= ->]. subst. left.
    + intros H'. right. apply IH. exact H'.
Qed.

Lemma getitem_Raise (label : string) (df : DataFrame) (e : exn) :
  getitem label df = Raise e -> e = KeyError label /\ label ∉ (columns df).*1.
Proof.
  destruct df as [n cs]. simpl. induction cs as [|[l0 s0] cs IH].
  - intros [= <-]. split; [reflexivity|]. simpl. apply not_elem_of_nil.
  - rewrite getitem_cons. case_bool_decide as H; [discriminate|].
    intros H'. destruct (IH H') as [-> Hn]. split; [reflexivity|].
    simpl. rewrite elem_of_cons. intros [->|?]; [congruence | contradiction].
Qed.

Lemma getitem_set_column_ne (label col : string) (s : Series) (df : DataFrame) :
  label <> col -> getitem label (set_column col s df) = getitem label df.
Proof.
  intros Hne. destruct df as [n cs]. unfold set_column. simpl.
  induction cs as [|[l0 s0] cs IH]; [reflexivity|].
  rewrite fmap_cons. simpl. case_bool_decide as H0.
  - subst l0. rewrite !getitem_cons.
    rewrite !bool_decide_eq_false_2 by congruence. exact IH.
  - rewrite !getitem_cons. case_bool_decide; [reflexivity | exact IH].
Qed.

Lemma getitem_set_column_eq (col : string) (s s0 : Series) (df : DataFrame) :
  getitem col df = Ok s0 -> getitem col (set_column col s df) = Ok s.
Proof.
  destruct df as [n cs]. unfold set_column. simpl.
  induction cs as [|[l0 s1] cs IH]; [discriminate|].
  rewrite fmap_cons, getitem_cons. simpl. case_bool_decide as H0.
  - intros _. rewrite getitem_cons. by rewrite bool_decide_eq_true_2.
  - intros H. rewrite getitem_cons. rewrite bool_decide_eq_false_2 by done.
    apply IH. exact H.
Qed.

Lemma unique_labels_elem (cs : list (string * Series)) (label : string) (s s' : Series) :
  NoDup cs.*1 -> (label, s) ∈ cs -> (label, s') ∈ cs -> s = s'.
Proof.
  induction cs as [|[l0 s0] cs IH]; simpl.
  - intros _ H. by apply elem_of_nil in H.
  - intros [Hnot Hnd]%NoDup_cons. rewrite !elem_of_cons.
    intros [H1|H1] [H2|H2].
    + congruence.
    + injection H1 as -> ->. exfalso. apply Hnot.
      apply list_elem_of_fmap. exists (l0, s'). done.
    + injection H2 as -> ->. exfalso. apply Hnot.
      apply list_elem_of_fmap. exists (l0, s). done.
    + by apply IH.
Qed.

Lemma set_column_same (col : string) (s : Series) (df : DataFrame) :
  unique_labels df -> getitem col df = Ok s -> set_column col s df = df.
Proof.
  intros Hu Hg. apply getitem_elem in Hg.
  destruct df as [n cs]. unfold set_column, unique_labels in *. simpl in *.
  f_equal. rewrite <- (list_fmap_id cs) at 2.
  apply list_fmap_ext. intros i [l0 s0] Hi. simpl.
  case_bool_decide as H; [|reflexivity]. subst l0. f_equal.
  apply (unique_labels_elem cs col); [done..|].
  by apply list_elem_of_lookup_2 in Hi.
Qed.

Lemma set_column_labels (col : string) (s : Series) (df : DataFrame) :
  (columns (set_column col s df)).*1 = (columns df).*1.
Proof.
  unfold set_column. simpl. rewrite <- list_fmap_compose.
  apply list_fmap_ext. intros i [l0 s0] _. simpl. by case_bool_decide.
Qed.

Lemma set_column_uniform (col : string) (s : Series) (df : DataFrame) :
  uniform df -> length (values s) = nrows df -> uniform (set_column col s df).
Proof.
  unfold uniform, set_column. simpl. intros Hu Hs.
  apply Forall_fmap. eapply Forall_impl; [exact Hu|].
  intros [l0 s0] H. simpl in *. by case_bool_decide.
Qed.

Lemma getitem_uniform (col : string) (s : Series) (df : DataFrame) :
  uniform df -> getitem col df = Ok s -> length (values s) = nrows df.
Proof.
  intros Hu Hg. apply getitem_elem in Hg.
  unfold uniform in Hu. rewrite Forall_forall in Hu. exact (Hu _ Hg).
Qed.

(** ** The conversion to numbers *)

Lemma to_numeric_length (l : list cell) : length (to_numeric l) = length l.
Proof. unfold to_numeric. destruct (seen_float _); by rewrite !length_fmap. Qed.

Lemma as_float_not_str (p : parsed) : is_str (as_float p) = false.
Proof. by destruct p. Qed.

Lemma as_int_not_str (p : parsed) : is_str (as_int p) = false.
Proof. by destruct p. Qed.

Lemma existsb_fmap_false {A B} (f : A -> B) (P : B -> bool) (l : list A) :
  (forall a, P (f a) = false) -> existsb P (f <$> l) = false.
Proof.
  intros H. induction l as [|a l IH]; [reflexivity|].
  rewrite fmap_cons. cbn [existsb]. by rewrite H, IH.
Qed.

Lemma to_numeric_no_str (l : list cell) : existsb is_str (to_numeric l) = false.
Proof.
  unfold to_numeric. destruct (seen_float _).
  - apply existsb_fmap_false, as_float_not_str.
  - apply existsb_fmap_false, as_int_not_str.
Qed.

(** ** C1: the income cell on the sample values *)

(** The two statements of the income cell, run on a DataFrame, leave in
    the column what [normalize_income] makes of its cells. *)
Lemma normalize_numeric_text_values (col : string) (df df' : DataFrame) (s : Series) :
  getitem col df = Ok s ->
  run (normalize_numeric_text col 1000) df = Ok df' ->
  column_values col df' = Some (normalize_income (values s)).
Proof.
  intros Hg H. unfold normalize_numeric_text in H. cbn [run exec] in H.
  inv_bind H. inv_bind H. injection H as <-.
  unfold strip_to_numeric in Ha. rewrite Hg, bind_Ok in Ha.
  destruct (has_str_accessor s); [|discriminate]. injection Ha as <-.
  unfold imul in Ha0.
  rewrite (getitem_set_column_eq col _ s df Hg), bind_Ok in Ha0.
  injection Ha0 as <-.
  unfold column_values.
  erewrite getitem_set_column_eq; [reflexivity|].
  by eapply getitem_set_column_eq.
Qed.

(** C1 (evaluated on the code).  On the column ["60,000", "40k", "unknown"]
    the income cell of the notebook strips the separator and the suffix,
    parses, and multiplies every parsed value by 1000, suffix or not: the
    result is [60000000, 40000, NaN], whose first entry is not the 60000
    that a multiplier applied to suffixed values only would give.  Run as
    statements on a DataFrame with that column, the cell leaves the same
    three values in it. *)
Theorem C1_income_cell_multiplies_unsuffixed_values :
  normalize_income [Str "60,000"; Str "40k"; Str "unknown"]
    = [Num (Fin 60000000); Num (Fin 40000); NaN]
  /\ normalize_income [Str "60,000"; Str "40k"; Str "unknown"]
    <> [Num (Fin 60000); Num (Fin 40000); NaN]
  /\ (column_values "annual_income" <$>
        match run (normalize_numeric_text "annual_income" 1000)
                  (DataFrame_of_dict
                     [("annual_income", [Str "60,000"; Str "40k"; Str "unknown"])]) with
        | Ok df => Some df
        | Raise _ => None
        end)
     = Some (Some [Num (Fin 60000000); Num (Fin 40000); NaN]).
Proof.
  split; [vm_compute; reflexivity|].
  split; [vm_compute; discriminate | vm_compute; reflexivity].
Qed.

(** ** C3: the number of rows *)

Lemma coerce_values_length old new l : length (coerce_values old new l) = length l.
Proof. unfold coerce_values, replace. by rewrite to_numeric_length, length_fmap. Qed.

Lemma impute_values_length l : length (impute_values l) = length l.
Proof. unfold impute_values, fillna. by rewrite length_fmap. Qed.

Lemma fillna_column_length d c :
  length (values (fillna_column d c).2) = length (values c.2).
Proof.
  unfold fillna_column. destruct (d !! c.1); [|reflexivity].
  destruct (existsb isna _); [|reflexivity]. simpl. unfold fillna. by rewrite length_fmap.
Qed.

Lemma exec_rows (st : stmt) (df df' : DataFrame) :
  uniform df -> exec st df = Ok df' -> nrows df' = nrows df /\ uniform df'.
Proof.
  intros Hu H.
  destruct st as [col old new|col|d|col|col k|col|col old new]; simpl in H.
  - unfold coerce_numeric in H. inv_bind H. injection H as <-.
    split; [reflexivity|]. apply set_column_uniform; [done|].
    simpl. rewrite coerce_values_length. by eapply getitem_uniform.
  - unfold impute_missing in H. inv_bind H.
    destruct (forallb convertible (values a)); [|discriminate]. injection H as <-.
    split; [reflexivity|]. apply set_column_uniform; [done|].
    simpl. rewrite impute_values_length. by eapply getitem_uniform.
  - unfold fill_categorical in H. injection H as <-.
    split; [reflexivity|]. unfold uniform in *. simpl.
    apply Forall_fmap. eapply Forall_impl; [exact Hu|].
    intros c Hc. simpl. by rewrite fillna_column_length.
  - unfold strip_to_numeric in H. inv_bind H.
    destruct (has_str_accessor a); [|discriminate]. injection H as <-.
    split; [reflexivity|]. apply set_column_uniform; [done|].
    simpl. unfold str_replace. rewrite to_numeric_length, length_fmap.
    by eapply getitem_uniform.
  - unfold imul in H. inv_bind H. injection H as <-.
    split; [reflexivity|]. apply set_column_uniform; [done|].
    simpl. rewrite length_fmap. by eapply getitem_uniform.
  - unfold drop_column in H. case_bool_decide; [|discriminate]. injection H as <-.
    split; [reflexivity|]. unfold uniform in *. simpl.
    rewrite Forall_forall in Hu. apply Forall_forall.
    intros c [_ Hc]%list_elem_of_filter. by apply Hu.
  - unfold relabel_category in H. inv_bind H. injection H as <-.
    split; [reflexivity|]. apply set_column_uniform; [done|].
    simpl. unfold replace. rewrite length_fmap. by eapply getitem_uniform.
Qed.

(** C3.  Every cleaning statement keeps the number of rows: on a DataFrame
    of any size whose columns all have one cell per row, the table a
    statement produces has the same number of rows and its columns again
    all have one cell per row; the same holds from the start to the end of
    any run of statements. *)
Theorem C3_row_count_invariant :
  forall (steps : list stmt) (df df' : DataFrame),
    uniform df -> run steps df = Ok df' ->
    nrows df' = nrows df
    /\ uniform df'
    /\ forall label s, (label, s) ∈ columns df' -> length (values s) = nrows df.
Proof.
  intros steps. induction steps as [|st steps IH]; intros df df' Hu H.
  - injection H as <-. split; [reflexivity|]. split; [exact Hu|].
    intros label s Hs. unfold uniform in Hu. rewrite Forall_forall in Hu.
    exact (Hu _ Hs).
  - simpl in H. inv_bind H.
    destruct (exec_rows _ _ _ Hu Ha) as [Hn Hu'].
    destruct (IH _ _ Hu' H) as (Hn' & Hu'' & Hc).
    split; [congruence|]. split; [exact Hu''|].
    intros label s Hs. rewrite <- Hn. by eapply Hc.
Qed.

Lemma messy_df_uniform : uniform messy_df.
Proof. unfold uniform. repeat constructor. Qed.

Lemma C3_row_count_invariant_witness :
  exists df', run notebook messy_df = Ok df' /\ nrows df' = 7%nat /\ uniform df'.
Proof.
  destruct (run notebook messy_df) as [df'|e] eqn:H; [|vm_compute in H; discriminate].
  exists df'. split; [reflexivity|].
  destruct (C3_row_count_invariant notebook messy_df df' messy_df_uniform H) as (Hn & Hu & _).
  split; [exact Hn | exact Hu].
Defined.

(** ** C2: imputation on a column with no value *)

Lemma all_missing_convertible (l : list cell) :
  forallb isna l = true -> forallb convertible l = true.
Proof.
  induction l as [|c l IH]; [reflexivity|]. simpl.
  intros [Hc Hl]%andb_prop. destruct c; try discriminate. simpl. by apply IH.
Qed.

Lemma all_missing_dropna (l : list cell) : forallb isna l = true -> dropna l = [].
Proof.
  induction l as [|c l IH]; [reflexivity|]. simpl.
  intros [Hc Hl]%andb_prop. destruct c; try discriminate.
  unfold dropna in *. simpl. by apply IH.
Qed.

Lemma median_all_missing (l : list cell) : forallb isna l = true -> median l = NaN.
Proof. intros H. unfold median. by rewrite all_missing_dropna. Qed.

Lemma fillna_NaN (l : list cell) : fillna NaN l = l.
Proof.
  unfold fillna. rewrite <- (list_fmap_id l) at 2.
  apply list_fmap_ext. intros i c _. by destruct c.
Qed.

(** C2 (amended).  When every cell of the column is missing at the time of
    the call, no median is computable: the median is NaN, filling with it
    changes nothing, and [impute_missing] returns the DataFrame it was
    given, without raising. *)
Theorem C2_impute_all_missing_returns_table :
  forall (col : string) (df : DataFrame) (s : Series),
    unique_labels df ->
    getitem col df = Ok s ->
    forallb isna (values s) = true ->
    median (values s) = NaN /\ impute_missing col df = Ok df.
Proof.
  intros col df s Hu Hg Hall. split; [by apply median_all_missing|].
  unfold impute_missing. rewrite Hg, bind_Ok.
  rewrite all_missing_convertible by done.
  unfold impute_values. rewrite median_all_missing by done. rewrite fillna_NaN.
  unfold mret, result_ret. f_equal.
  destruct s as [t l]. simpl. by apply set_column_same.
Qed.

Lemma C2_impute_all_missing_returns_table_witness :
  impute_missing "age" (DataFrame_of_dict [("name", [Str "Alice"; Str "Bob"]); ("age", [NaN; NaN])])
  = Ok (DataFrame_of_dict [("name", [Str "Alice"; Str "Bob"]); ("age", [NaN; NaN])]).
Proof.
  refine (proj2 (C2_impute_all_missing_returns_table "age"
            (DataFrame_of_dict [("name", [Str "Alice"; Str "Bob"]); ("age", [NaN; NaN])])
            (mkSeries Float64 [NaN; NaN]) _ _ _)).
  - unfold unique_labels. simpl. compute_done.
  - reflexivity.
  - reflexivity.
Defined.

(** C2 (as stated, refuted).  On a DataFrame whose age column is all
    missing, [impute_missing] returns a table and raises nothing. *)
Lemma C2_counterexample :
  forallb isna [NaN; NaN] = true
  /\ impute_missing "age" (DataFrame_of_dict [("age", [NaN; NaN])])
     = Ok (DataFrame_of_dict [("age", [NaN; NaN])])
  /\ ~ exists e, impute_missing "age" (DataFrame_of_dict [("age", [NaN; NaN])]) = Raise e.
Proof.
  split; [reflexivity|]. split; [vm_compute; reflexivity|].
  intros [e H]. vm_compute in H. discriminate.
Qed.

(** ** C6: dropping a column *)

Lemma filter_absent (col : string) (cs : list (string * Series)) :
  col ∉ cs.*1 -> filter (fun c : string * Series => c.1 ≠ col) cs = cs.
Proof.
  induction cs as [|[l0 s0] cs IH]; [reflexivity|]. simpl.
  rewrite not_elem_of_cons. intros [Hne Hn].
  rewrite filter_cons_True by (simpl; congruence). f_equal. by apply IH.
Qed.

Lemma filter_drops_one (col : string) (cs : list (string * Series)) :
  NoDup cs.*1 -> col ∈ cs.*1 ->
  length cs = S (length (filter (fun c : string * Series => c.1 ≠ col) cs)).
Proof.
  induction cs as [|[l0 s0] cs IH]; simpl.
  - intros _ H. by apply elem_of_nil in H.
  - intros [Hnot Hnd]%NoDup_cons. rewrite elem_of_cons.
    destruct (decide (l0 = col)) as [->|Hne].
    + intros _. rewrite filter_cons_False by (simpl; tauto).
      by rewrite filter_absent.
    + intros [?|Hin]; [congruence|].
      rewrite filter_cons_True by done. simpl. f_equal. by apply IH.
Qed.

Lemma filter_labels (col : string) (cs : list (string * Series)) :
  (filter (fun c : string * Series => c.1 ≠ col) cs).*1 = filter (fun l => l ≠ col) cs.*1.
Proof.
  induction cs as [|[l0 s0] cs IH]; [reflexivity|].
  destruct (decide (l0 = col)) as [->|Hne].
  - rewrite filter_cons_False by (simpl; tauto).
    rewrite fmap_cons. cbn [fst].
    rewrite filter_cons_False by tauto. exact IH.
  - rewrite filter_cons_True by done.
    rewrite !fmap_cons. cbn [fst].
    rewrite filter_cons_True by done. by rewrite IH.
Qed.

Lemma getitem_filter_ne (label col : string) (n : nat) (cs : list (string * Series)) :
  label <> col ->
  getitem label (mkDataFrame n (filter (fun c : string * Series => c.1 ≠ col) cs))
  = getitem label (mkDataFrame n cs).
Proof.
  intros Hne. induction cs as [|[l0 s0] cs IH]; [reflexivity|].
  destruct (decide (l0 = col)) as [->|Hne0].
  - rewrite filter_cons_False by (simpl; tauto).
    rewrite getitem_cons, bool_decide_eq_false_2 by congruence. exact IH.
  - rewrite filter_cons_True by done. rewrite !getitem_cons.
    case_bool_decide; [reflexivity | exact IH].
Qed.

(** C6.  On a DataFrame that has a column [col] (such as
    "monthly_salary"), [drop_column col] succeeds and removes exactly that
    column: the number of rows is kept, the remaining labels are the old
    ones without [col], the remaining columns are the old columns in their
    old order, one fewer in number, and each of them is read back with the
    values it had.  Dropping [col] a second time, from the table so
    obtained, raises the column-not-found error, [KeyError] on [col]. *)
Theorem C6_drop_column_exactly_one :
  forall (col : string) (df : DataFrame),
    unique_labels df -> col ∈ (columns df).*1 ->
    exists df',
      drop_column col df = Ok df'
      /\ nrows df' = nrows df
      /\ (columns df').*1 = filter (fun l => l ≠ col) (columns df).*1
      /\ columns df' `sublist_of` columns df
      /\ length (columns df) = S (length (columns df'))
      /\ (forall label, label <> col -> getitem label df' = getitem label df)
      /\ (col ∉ (columns df').*1)
      /\ drop_column col df' = Raise (KeyError col).
Proof.
  intros col df Hu Hin. unfold drop_column.
  rewrite bool_decide_eq_true_2 by done. eexists. split; [reflexivity|].
  simpl. split; [reflexivity|]. split; [apply filter_labels|].
  split; [apply sublist_filter|]. split; [by apply filter_drops_one|].
  split; [intros label Hne; destruct df as [n cs]; by apply getitem_filter_ne|].
  assert (Hout : col ∉ (filter (fun c : string * Series => c.1 ≠ col) (columns df)).*1).
  { rewrite filter_labels. intros [H _]%list_elem_of_filter. by apply H. }
  split; [exact Hout|]. by rewrite bool_decide_eq_false_2.
Qed.

Lemma messy_df_unique_labels : unique_labels messy_df.
Proof. unfold unique_labels. simpl. compute_done. Qed.

Lemma C6_drop_column_exactly_one_witness :
  exists df',
    drop_column "monthly_salary" messy_df = Ok df'
    /\ (columns df').*1 = ["name"; "age"; "gender"; "country"; "annual_income"]
    /\ drop_column "monthly_salary" df' = Raise (KeyError "monthly_salary").
Proof.
  destruct (C6_drop_column_exactly_one "monthly_salary" messy_df) as
    (df' & H1 & _ & H3 & _ & _ & _ & _ & H8).
  - unfold unique_labels. simpl. compute_done.
  - simpl. compute_done.
  - exists df'. split; [exact H1|]. split; [|exact H8].
    rewrite H3. vm_compute. reflexivity.
Defined.

(** ** C10: missing and "Other" gender cells *)

Lemma fillna_column_label d c : (fillna_column d c).1 = c.1.
Proof.
  unfold fillna_column. destruct (d !! c.1); [|reflexivity].
  by destruct (existsb isna _).
Qed.

Lemma fillna_id (v : cell) (l : list cell) : existsb isna l = false -> fillna v l = l.
Proof.
  induction l as [|c l IH]; [reflexivity|]. simpl.
  intros [Hc Hl]%orb_false_elim. unfold fillna_cell at 1. rewrite Hc.
  f_equal. by apply IH.
Qed.

Lemma fillna_column_values d c v :
  d !! c.1 = Some v -> values (fillna_column d c).2 = fillna (Str v) (values c.2).
Proof.
  intros Hd. unfold fillna_column. rewrite Hd.
  destruct (existsb isna _) eqn:Hna; [reflexivity|]. by rewrite fillna_id.
Qed.

Lemma getitem_fill_categorical d label n cs :
  getitem label (mkDataFrame n (fillna_column d <$> cs)) =
    match getitem label (mkDataFrame n cs) with
    | Ok s => Ok (fillna_column d (label, s)).2
    | Raise e => Raise e
    end.
Proof.
  induction cs as [|[l0 s0] cs IH]; [reflexivity|].
  rewrite fmap_cons.
  destruct (fillna_column d (l0, s0)) as [l1 s1] eqn:Hf.
  assert (l1 = l0) as -> by (pose proof (fillna_column_label d (l0, s0)) as H;
                              by rewrite Hf in H).
  rewrite !getitem_cons. case_bool_decide as Hl.
  - subst l0. by rewrite Hf.
  - exact IH.
Qed.

Lemma getitem_mk (label : string) (df : DataFrame) (n : nat) :
  getitem label (mkDataFrame n (columns df)) = getitem label df.
Proof. reflexivity. Qed.

Lemma coerce_numeric_other label col old new df df' :
  label <> col -> coerce_numeric col old new df = Ok df' ->
  getitem label df' = getitem label df.
Proof.
  intros Hne H. unfold coerce_numeric in H. inv_bind H. injection H as <-.
  by apply getitem_set_column_ne.
Qed.

Lemma impute_missing_other label col df df' :
  label <> col -> impute_missing col df = Ok df' ->
  getitem label df' = getitem label df.
Proof.
  intros Hne H. unfold impute_missing in H. inv_bind H.
  destruct (forallb convertible (values a)); [|discriminate]. injection H as <-.
  by apply getitem_set_column_ne.
Qed.

Lemma strip_to_numeric_other label col df df' :
  label <> col -> strip_to_numeric col df = Ok df' ->
  getitem label df' = getitem label df.
Proof.
  intros Hne H. unfold strip_to_numeric in H. inv_bind H.
  destruct (has_str_accessor a); [|discriminate]. injection H as <-.
  by apply getitem_set_column_ne.
Qed.

Lemma imul_other label col k df df' :
  label <> col -> imul col k df = Ok df' ->
  getitem label df' = getitem label df.
Proof.
  intros Hne H. unfold imul in H. inv_bind H. injection H as <-.
  by apply getitem_set_column_ne.
Qed.

Lemma drop_column_other label col df df' :
  label <> col -> drop_column col df = Ok df' ->
  getitem label df' = getitem label df.
Proof.
  intros Hne H. unfold drop_column in H. case_bool_decide; [|discriminate].
  injection H as <-. destruct df as [n cs]. by apply getitem_filter_ne.
Qed.

Lemma fill_categorical_getitem d label df df' :
  fill_categorical d df = Ok df' ->
  getitem label df' =
    match getitem label df with
    | Ok s => Ok (fillna_column d (label, s)).2
    | Raise e => Raise e
    end.
Proof.
  intros H. unfold fill_categorical in H. injection H as <-.
  destruct df as [n cs]. apply getitem_fill_categorical.
Qed.

Lemma relabel_category_getitem col old new df df' s :
  relabel_category col old new df = Ok df' -> getitem col df = Ok s ->
  getitem col df' = Ok (mkSeries (dty s) (replace old (Str new) (values s))).
Proof.
  intros H Hg. unfold relabel_category in H. rewrite Hg, bind_Ok in H.
  injection H as <-. by eapply getitem_set_column_eq.
Qed.

(** C10.  Whenever the notebook's statements run to the end on a
    DataFrame, the gender column of the final table is the input column
    with every missing cell and every "Other" cell turned into
    "Non-binary" and every other cell kept: a cell that was missing in the
    input and a cell that was "Other" in the input both end as
    "Non-binary". *)
Theorem C10_missing_gender_ends_non_binary :
  forall (df df' : DataFrame) (s : Series),
    run notebook df = Ok df' ->
    getitem "gender" df = Ok s ->
    exists s',
      getitem "gender" df' = Ok s'
      /\ values s' = final_gender <$> values s
      /\ forall i, values s !! i = Some NaN \/ values s !! i = Some (Str "Other") ->
                   values s' !! i = Some (Str "Non-binary").
Proof.
  intros df df' s H Hg.
  assert (Hgoal : exists s', getitem "gender" df' = Ok s'
                             /\ values s' = final_gender <$> values s).
  { unfold notebook in H. cbn [run exec] in H.
    inv_bind H. rename a into d1, Ha into H1.
    inv_bind H. rename a into d2, Ha into H2.
    inv_bind H. rename a into d3, Ha into H3.
    inv_bind H. rename a into d4, Ha into H4.
    inv_bind H. rename a into d5, Ha into H5.
    inv_bind H. rename a into d6, Ha into H6.
    inv_bind H. rename a into d7, Ha into H7.
    injection H as <-.
    apply (coerce_numeric_other "gender") in H1; [|discriminate].
    apply (impute_missing_other "gender") in H2; [|discriminate].
    apply (fill_categorical_getitem _ "gender") in H3.
    apply (strip_to_numeric_other "gender") in H4; [|discriminate].
    apply (imul_other "gender") in H5; [|discriminate].
    apply (drop_column_other "gender") in H6; [|discriminate].
    rewrite H2, H1, Hg in H3.
    rewrite <- H4, <- H5, <- H6 in H3.
    apply (relabel_category_getitem _ _ _ _ _ _ H7) in H3.
    eexists. split; [exact H3|]. simpl.
    rewrite (fillna_column_values _ _ "Other") by reflexivity.
    simpl. unfold replace, fillna, final_gender.
    by rewrite <- list_fmap_compose. }
  destruct Hgoal as (s' & Hs' & Hv). exists s'. split; [exact Hs'|]. split; [exact Hv|].
  intros i [Hi|Hi]; rewrite Hv, list_lookup_fmap, Hi; reflexivity.
Qed.

Lemma C10_missing_gender_ends_non_binary_witness :
  exists df' s',
    run notebook gender_sample = Ok df'
    /\ getitem "gender" df' = Ok s'
    /\ values s' !! 0%nat = Some (Str "Non-binary")
    /\ values s' !! 1%nat = Some (Str "Non-binary").
Proof.
  destruct (run notebook gender_sample) as [df'|e] eqn:H; [|vm_compute in H; discriminate].
  destruct (C10_missing_gender_ends_non_binary gender_sample df'
              (mkSeries Object [NaN; Str "Other"; Str "Male"]) H eq_refl)
    as (s' & Hs' & _ & Hi).
  exists df', s'. split; [reflexivity|]. split; [exact Hs'|].
  split; apply Hi; [left | right]; reflexivity.
Defined.

(** * Further properties of the statements *)

(** ** Absent columns *)

Lemma getitem_absent (label : string) (df : DataFrame) :
  label ∉ (columns df).*1 -> getitem label df = Raise (KeyError label).
Proof.
  intros Hn. destruct (getitem label df) as [s|e] eqn:Hg.
  - exfalso. apply Hn. apply getitem_elem in Hg.
    apply list_elem_of_fmap. by exists (label, s).
  - by destruct (getitem_Raise _ _ _ Hg) as [-> _].
Qed.


Lemma fillna_column_absent (col v : string) (c : string * Series) :
  c.1 <> col -> fillna_column {[col := v]} c = c.
Proof. intros Hne. unfold fillna_column. by rewrite lookup_singleton_ne. Qed.

(** X1.  A statement that names a column the DataFrame does not have
    raises [KeyError] on that label: the coercion, the imputation, the
    income parse, the multiplication, the drop and the relabelling all do.
    The dictionary fill alone skips a label that names no column and
    returns the DataFrame as it was. *)
Theorem X1_absent_column_raises_KeyError :
  forall (col : string) (df : DataFrame),
    col ∉ (columns df).*1 ->
    (forall old new, coerce_numeric col old new df = Raise (KeyError col))
    /\ impute_missing col df = Raise (KeyError col)
    /\ strip_to_numeric col df = Raise (KeyError col)
    /\ (forall k, imul col k df = Raise (KeyError col))
    /\ drop_column col df = Raise (KeyError col)
    /\ (forall old new, relabel_category col old new df = Raise (KeyError col))
    /\ (forall v, fill_categorical {[col := v]} df = Ok df)
    /\ (forall steps old new, run (CoerceNumeric col old new :: steps) df = Raise (KeyError col)).
Proof.
  intros col df Hn. pose proof (getitem_absent col df Hn) as Hg.
  unfold coerce_numeric, impute_missing, strip_to_numeric, imul, relabel_category.
  rewrite Hg. repeat split; try reflexivity.
  - unfold drop_column. by rewrite bool_decide_eq_false_2.
  - intros v. unfold fill_categorical, mret, result_ret. f_equal.
    destruct df as [n cs]. simpl in *. f_equal.
    rewrite <- (list_fmap_id cs) at 2. apply list_fmap_ext.
    intros i c Hi. simpl. apply fillna_column_absent. intros E. apply Hn.
    apply list_elem_of_fmap. exists c. split; [done|].
    by apply list_elem_of_lookup_2 in Hi.
  - intros steps old new. simpl. unfold coerce_numeric. by rewrite Hg.
Qed.

Lemma X1_absent_column_raises_KeyError_witness :
  impute_missing "salary" messy_df = Raise (KeyError "salary")
  /\ fill_categorical {["salary" := "Unknown"]} messy_df = Ok messy_df.
Proof.
  assert (H : "salary" ∉ (columns messy_df).*1) by (simpl; compute_done).
  destruct (X1_absent_column_raises_KeyError "salary" messy_df H)
    as (_ & H2 & _ & _ & _ & _ & H7 & _).
  split; [exact H2 | apply H7].
Defined.

(** ** The columns a statement leaves alone *)

Lemma rewrites_column_set (col : string) (df df' : DataFrame) :
  rewrites_column col df df' ->
  exists s0 s, getitem col df = Ok s0 /\ df' = set_column col s df.
Proof.
  intros [(old & new & H)|[H|[H|[(k & H)|(old & new & H)]]]].
  - unfold coerce_numeric in H. inv_bind H. injection H as <-. eauto.
  - unfold impute_missing in H. inv_bind H.
    destruct (forallb convertible (values a)); [|discriminate]. injection H as <-. eauto.
  - unfold strip_to_numeric in H. inv_bind H.
    destruct (has_str_accessor a); [|discriminate]. injection H as <-. eauto.
  - unfold imul in H. inv_bind H. injection H as <-. eauto.
  - unfold relabel_category in H. inv_bind H. injection H as <-. eauto.
Qed.

Lemma rewrites_column_labels (col : string) (df df' : DataFrame) :
  rewrites_column col df df' -> (columns df').*1 = (columns df).*1.
Proof.
  intros (s0 & s & _ & ->)%rewrites_column_set. apply set_column_labels.
Qed.

(** X2.  A statement that rewrites the column [col] (the coercion, the
    imputation, the income parse, the multiplication, the relabelling)
    keeps the number of rows, the labels and their order, and every column
    other than [col] is read back exactly as it was, dtype and cells. *)
Theorem X2_rewriting_a_column_leaves_the_others :
  forall (col : string) (df df' : DataFrame),
    rewrites_column col df df' ->
    nrows df' = nrows df
    /\ (columns df').*1 = (columns df).*1
    /\ (forall label, label <> col -> getitem label df' = getitem label df)
    /\ exists s', getitem col df' = Ok s'.
Proof.
  intros col df df' H.
  destruct (rewrites_column_set _ _ _ H) as (s0 & s & Hg & ->).
  split; [reflexivity|]. split; [apply set_column_labels|].
  split; [intros label Hne; by apply getitem_set_column_ne|].
  exists s. by eapply getitem_set_column_eq.
Qed.

Lemma X2_rewriting_a_column_leaves_the_others_witness :
  exists df',
    imul "age" 2 (DataFrame_of_dict [("age", [Num (of_int 25)]); ("name", [Str "Alice"])])
      = Ok df'
    /\ getitem "name" df' = Ok (mkSeries Object [Str "Alice"]).
Proof.
  destruct (imul "age" 2 (DataFrame_of_dict [("age", [Num (of_int 25)]); ("name", [Str "Alice"])]))
    as [df'|e] eqn:H; [|vm_compute in H; discriminate].
  exists df'. split; [reflexivity|].
  destruct (X2_rewriting_a_column_leaves_the_others "age" _ df'
              (or_intror (or_intror (or_intror (or_introl (ex_intro _ 2 H))))))
    as (_ & _ & Hother & _).
  rewrite (Hother "name") by discriminate. reflexivity.
Defined.

(** ** Labels along a run *)

Lemma fill_categorical_labels d df df' :
  fill_categorical d df = Ok df' -> (columns df').*1 = (columns df).*1.
Proof.
  intros H. unfold fill_categorical in H. injection H as <-. simpl.
  rewrite <- list_fmap_compose. apply list_fmap_ext.
  intros i c _. simpl. apply fillna_column_label.
Qed.

Lemma exec_labels (st : stmt) (df df' : DataFrame) :
  exec st df = Ok df' ->
  (columns df').*1 = (columns df).*1
  \/ exists col, st = DropColumn col /\ col ∈ (columns df).*1
                 /\ (columns df').*1 = filter (fun l => l ≠ col) (columns df).*1.
Proof.
  intros H.
  destruct st as [col old new|col|d|col|col k|col|col old new]; simpl in H.
  - left. apply (rewrites_column_labels col). left. eauto.
  - left. apply (rewrites_column_labels col). right. left. eauto.
  - left. by eapply fill_categorical_labels.
  - left. apply (rewrites_column_labels col). do 2 right. left. eauto.
  - left. apply (rewrites_column_labels col). do 3 right. left. eauto.
  - right. exists col. split; [reflexivity|].
    unfold drop_column in H. case_bool_decide as Hin; [|discriminate].
    injection H as <-. split; [exact Hin|]. simpl. apply filter_labels.
  - left. apply (rewrites_column_labels col). do 4 right. eauto.
Qed.

Lemma exec_unique_labels (st : stmt) (df df' : DataFrame) :
  unique_labels df -> exec st df = Ok df' ->
  unique_labels df' /\ sublist (columns df').*1 (columns df).*1.
Proof.
  intros Hu H. unfold unique_labels in *.
  destruct (exec_labels _ _ _ H) as [->|(col & _ & _ & ->)].
  - split; [exact Hu | reflexivity].
  - split; [by apply NoDup_filter | apply sublist_filter].
Qed.

(** X3.  No statement adds, renames or reorders a column: along any run
    the labels of the table are the input labels, in their input order,
    with some of them left out, they stay distinct if they were, and a run
    without a drop keeps all of them. *)
Theorem X3_run_keeps_labels_distinct_and_ordered :
  forall (steps : list stmt) (df df' : DataFrame),
    unique_labels df -> run steps df = Ok df' ->
    unique_labels df'
    /\ sublist (columns df').*1 (columns df).*1
    /\ ((forall col, DropColumn col ∉ steps) -> (columns df').*1 = (columns df).*1).
Proof.
  intros steps. induction steps as [|st steps IH]; intros df df' Hu H.
  - injection H as <-. done.
  - simpl in H. inv_bind H.
    destruct (exec_unique_labels _ _ _ Hu Ha) as [Hu1 Hs1].
    destruct (IH _ _ Hu1 H) as (Hu2 & Hs2 & Hk).
    split; [exact Hu2|]. split; [by etrans|].
    intros Hnd. rewrite Hk.
    + destruct (exec_labels _ _ _ Ha) as [E|(col & -> & _)]; [exact E|].
      exfalso. apply (Hnd col). left.
    + intros col Hin. apply (Hnd col). by right.
Qed.

Lemma X3_run_keeps_labels_distinct_and_ordered_witness :
  exists df', run notebook messy_df = Ok df'
    /\ unique_labels df'
    /\ sublist (columns df').*1 ["name"; "age"; "gender"; "country"; "monthly_salary";
                                  "annual_income"].
Proof.
  destruct (run notebook messy_df) as [df'|e] eqn:H; [|vm_compute in H; discriminate].
  exists df'. split; [reflexivity|].
  destruct (X3_run_keeps_labels_distinct_and_ordered notebook messy_df df'
              messy_df_unique_labels H) as (Hu & Hs & _).
  split; [exact Hu | exact Hs].
Defined.

(** ** Running a statement again *)

Lemma replace_cell_id old new (c : cell) : is_str c = false -> replace_cell old new c = c.
Proof. by destruct c. Qed.

Lemma replace_id old new (l : list cell) : existsb is_str l = false -> replace old new l = l.
Proof.
  unfold replace. induction l as [|c l IH]; [reflexivity|]. cbn [existsb].
  intros [Hc Hl]%orb_false_elim. rewrite fmap_cons.
  rewrite replace_cell_id by done. f_equal. by apply IH.
Qed.

Lemma existsb_fmap {A B} (f : A -> B) (P : B -> bool) (l : list A) :
  existsb P (f <$> l) = existsb (fun a => P (f a)) l.
Proof.
  induction l as [|a l IH]; [reflexivity|]. rewrite fmap_cons. cbn [existsb]. by rewrite IH.
Qed.

Lemma existsb_all {A} (P : A -> bool) (l : list A) :
  l <> [] -> (forall a, P a = true) -> existsb P l = true.
Proof. destruct l as [|a l]; [done|]. intros _ H. cbn [existsb]. by rewrite H. Qed.

Lemma existsb_ext_in {A} (P Q : A -> bool) (l : list A) :
  (forall a, a ∈ l -> P a = Q a) -> existsb P l = existsb Q l.
Proof.
  induction l as [|a l IH]; [reflexivity|]. intros H. cbn [existsb].
  rewrite (H a) by left. f_equal. apply IH. intros b Hb. apply H. by right.
Qed.

Lemma existsb_none {A} (P : A -> bool) (l : list A) :
  existsb P l = false -> forall a, a ∈ l -> P a = false.
Proof.
  induction l as [|b l IH]; intros H a Ha; [by apply elem_of_nil in Ha|].
  cbn [existsb] in H. apply orb_false_elim in H as [Hb Hl].
  apply elem_of_cons in Ha as [->|Ha]; [exact Hb | by apply IH].
Qed.

Lemma parse_as_float (p : parsed) : parse_cell (as_float p) = match p with
                                                            | PInt _ f => PFloat f
                                                            | _ => p
                                                            end.
Proof. by destruct p. Qed.

Lemma forces_float_as_float (p : parsed) : forces_float (parse_cell (as_float p)) = true.
Proof. by destruct p. Qed.

(** Converting a converted column again changes nothing. *)
Lemma to_numeric_idemp (l : list cell) : to_numeric (to_numeric l) = to_numeric l.
Proof.
  unfold to_numeric at 2 3. set (ps := parse_cell <$> l).
  destruct (seen_float ps) eqn:Hsf.
  - (* a float64 column *)
    destruct ps as [|p ps']; [reflexivity|].
    unfold to_numeric.
    assert (Hs : seen_float (parse_cell <$> (as_float <$> p :: ps')) = true).
    { unfold seen_float. rewrite <- list_fmap_compose, existsb_fmap.
      rewrite existsb_all; [reflexivity | done | intros a; apply forces_float_as_float]. }
    rewrite Hs. rewrite <- !list_fmap_compose. apply list_fmap_ext.
    intros i a _. simpl. by destruct a.
  - (* an integer column *)
    unfold seen_float in Hsf. apply orb_false_elim in Hsf as [Hff Hconf].
    pose proof (existsb_none _ _ Hff) as Hall.
    assert (Hint : forall a, a ∈ ps -> parse_cell (as_int a) = match a with
                                                                | PInt z _ => PInt z (float_of_int z)
                                                                | _ => a
                                                                end
                                       /\ exists z f, a = PInt z f).
    { intros a Ha. specialize (Hall a Ha). destruct a as [|x|z f]; try discriminate.
      split; [reflexivity | eauto]. }
    unfold to_numeric.
    assert (Hs : seen_float (parse_cell <$> (as_int <$> ps)) = false).
    { unfold seen_float. rewrite <- list_fmap_compose, !existsb_fmap.
      rewrite (existsb_ext_in _ forces_float ps), Hff.
      2:{ intros a Ha. destruct (Hint a Ha) as [_ (z & f & ->)]. reflexivity. }
      rewrite (existsb_ext_in (fun a => is_sint _) is_sint ps).
      2:{ intros a Ha. destruct (Hint a Ha) as [_ (z & f & ->)]. reflexivity. }
      rewrite (existsb_ext_in (fun a => is_uint _) is_uint ps).
      2:{ intros a Ha. destruct (Hint a Ha) as [_ (z & f & ->)]. reflexivity. }
      exact Hconf. }
    rewrite Hs. rewrite <- !list_fmap_compose. apply list_fmap_ext.
    intros i a Ha. simpl. apply list_elem_of_lookup_2 in Ha.
    destruct (Hint a Ha) as [_ (z & f & ->)]. reflexivity.
Qed.

Lemma coerce_values_no_str old new l : existsb is_str (coerce_values old new l) = false.
Proof. apply to_numeric_no_str. Qed.

Lemma coerce_values_again old old' new new' l :
  coerce_values old' new' (coerce_values old new l) = coerce_values old new l.
Proof.
  unfold coerce_values at 1. rewrite replace_id by apply coerce_values_no_str.
  apply to_numeric_idemp.
Qed.

Lemma set_column_unique (col : string) (s : Series) (df : DataFrame) :
  unique_labels df -> unique_labels (set_column col s df).
Proof. unfold unique_labels. by rewrite set_column_labels. Qed.

(** X4.  The coercion of a column is idempotent: once [coerce_numeric] has
    run on a column, the column holds numbers and NaN only, and running a
    coercion on it again, with the same or any other override, succeeds
    and changes nothing in the DataFrame. *)
Theorem X4_coerce_numeric_again_changes_nothing :
  forall (col old old' : string) (new new' : cell) (df df1 : DataFrame),
    unique_labels df ->
    coerce_numeric col old new df = Ok df1 ->
    coerce_numeric col old' new' df1 = Ok df1
    /\ exists s1, getitem col df1 = Ok s1 /\ dty s1 = Float64
                  /\ existsb is_str (values s1) = false.
Proof.
  intros col old old' new new' df df1 Hu H.
  unfold coerce_numeric in H. inv_bind H. injection H as <-.
  set (s1 := {| dty := Float64; values := coerce_values old new (values a) |}).
  assert (Hg1 : getitem col (set_column col s1 df) = Ok s1)
    by (by eapply getitem_set_column_eq).
  split.
  - unfold coerce_numeric. rewrite Hg1, bind_Ok. unfold mret, result_ret. f_equal.
    simpl values. rewrite coerce_values_again.
    apply set_column_same; [by apply set_column_unique | exact Hg1].
  - exists s1. split; [exact Hg1|]. split; [reflexivity|]. apply coerce_values_no_str.
Qed.

Lemma X4_coerce_numeric_again_changes_nothing_witness :
  exists df1,
    coerce_numeric "age" "thirty-five" (Num (of_int 35)) messy_df = Ok df1
    /\ coerce_numeric "age" "unknown" (Num (of_int 0)) df1 = Ok df1.
Proof.
  destruct (coerce_numeric "age" "thirty-five" (Num (of_int 35)) messy_df)
    as [df1|e] eqn:H; [|vm_compute in H; discriminate].
  exists df1. split; [reflexivity|].
  exact (proj1 (X4_coerce_numeric_again_changes_nothing "age" "thirty-five" "unknown"
                  (Num (of_int 35)) (Num (of_int 0)) messy_df df1
                  messy_df_unique_labels H)).
Defined.

Lemma favg_not_str (a b : float64) : is_str (favg a b) = false.
Proof. by destruct a, b. Qed.

Lemma median_not_str (l : list cell) : is_str (median l) = false.
Proof.
  unfold median. destruct (length _); [reflexivity|].
  destruct (Nat.odd _).
  - by destruct (_ !! _).
  - destruct (_ !! _); [|reflexivity]. destruct (_ !! _); [|reflexivity].
    apply favg_not_str.
Qed.

Lemma impute_values_idemp (l : list cell) :
  impute_values (impute_values l) = impute_values l.
Proof.
  destruct (median l) as [|x|s|z] eqn:Hm.
  - assert (E : impute_values l = l) by (unfold impute_values; rewrite Hm; apply fillna_NaN).
    by rewrite !E.
  - unfold impute_values at 1. apply fillna_id.
    unfold impute_values. rewrite Hm. by apply fillna_no_missing.
  - pose proof (median_not_str l) as H. rewrite Hm in H. discriminate.
  - unfold impute_values at 1. apply fillna_id.
    unfold impute_values. rewrite Hm. by apply fillna_no_missing.
Qed.

Lemma fillna_no_str (m : cell) (l : list cell) :
  is_str m = false -> existsb is_str l = false -> existsb is_str (fillna m l) = false.
Proof.
  intros Hm. unfold fillna. induction l as [|c l IH]; [reflexivity|]. cbn [existsb].
  intros [Hc Hl]%orb_false_elim. rewrite fmap_cons. cbn [existsb].
  rewrite IH by done.
  rewrite orb_false_r. unfold fillna_cell. by destruct (isna c).
Qed.

Lemma impute_values_no_str (l : list cell) :
  existsb is_str l = false -> existsb is_str (impute_values l) = false.
Proof. apply fillna_no_str, median_not_str. Qed.

Lemma not_str_convertible (c : cell) : is_str c = false -> convertible c = true.
Proof. by destruct c. Qed.

Lemma no_str_convertible (l : list cell) :
  existsb is_str l = false -> forallb convertible l = true.
Proof.
  induction l as [|c l IH]; [reflexivity|]. cbn [existsb forallb].
  intros [Hc Hl]%orb_false_elim. by rewrite not_str_convertible, IH.
Qed.

Lemma fillna_convertible (m : cell) (l : list cell) :
  is_str m = false -> forallb convertible l = true ->
  forallb convertible (fillna m l) = true.
Proof.
  intros Hm. unfold fillna. induction l as [|c l IH]; [reflexivity|]. cbn [forallb].
  intros [Hc Hl]%andb_prop. rewrite fmap_cons. cbn [forallb]. rewrite IH by done.
  rewrite andb_true_r. unfold fillna_cell.
  destruct (isna c); [by apply not_str_convertible | exact Hc].
Qed.

(** X5.  The median imputation is idempotent: after [impute_missing] has
    run on a column, running it again succeeds and changes nothing in the
    DataFrame (either no missing cell is left, or there was no median to
    fill with and there is none now). *)
Theorem X5_impute_missing_again_changes_nothing :
  forall (col : string) (df df1 : DataFrame),
    unique_labels df ->
    impute_missing col df = Ok df1 ->
    impute_missing col df1 = Ok df1.
Proof.
  intros col df df1 Hu H.
  unfold impute_missing in H. inv_bind H.
  destruct (forallb convertible (values a)) eqn:Hstr; [|discriminate]. injection H as <-.
  set (s1 := {| dty := dty a; values := impute_values (values a) |}).
  assert (Hg1 : getitem col (set_column col s1 df) = Ok s1)
    by (by eapply getitem_set_column_eq).
  unfold impute_missing. rewrite Hg1, bind_Ok. simpl values.
  unfold impute_values at 1. rewrite fillna_convertible by (done || apply median_not_str).
  unfold mret, result_ret. f_equal. rewrite impute_values_idemp.
  apply set_column_same; [by apply set_column_unique | exact Hg1].
Qed.

Lemma X5_impute_missing_again_changes_nothing_witness :
  exists df1,
    impute_missing "age" (DataFrame_of_dict [("age", [Num (of_int 25); NaN; Num (of_int 30)])])
      = Ok df1
    /\ column_values "age" df1 = Some [Num (Fin 25); Num (Fin (55 # 2)); Num (Fin 30)]
    /\ impute_missing "age" df1 = Ok df1.
Proof.
  destruct (impute_missing "age"
              (DataFrame_of_dict [("age", [Num (of_int 25); NaN; Num (of_int 30)])]))
    as [df1|e] eqn:H; [|vm_compute in H; discriminate].
  exists df1. split; [reflexivity|]. split.
  - vm_compute in H. injection H as <-. vm_compute. reflexivity.
  - apply (X5_impute_missing_again_changes_nothing "age"
             (DataFrame_of_dict [("age", [Num (of_int 25); NaN; Num (of_int 30)])]) df1);
      [unfold unique_labels; simpl; compute_done | exact H].
Defined.

(** ** Running the income cell or the notebook a second time *)

(** X6.  The income parse cannot be run twice on a column: after it has
    run, the column is a numeric column, which has no [.str] accessor, and
    a second run raises [AttributeError]. *)
Theorem X6_strip_to_numeric_twice_raises :
  forall (col : string) (df df1 : DataFrame),
    strip_to_numeric col df = Ok df1 ->
    strip_to_numeric col df1 = Raise AttributeError
    /\ run (normalize_numeric_text col 1000 ++ normalize_numeric_text col 1000) df
       = Raise AttributeError.
Proof.
  intros col df df1 H.
  assert (H' := H).
  unfold strip_to_numeric in H. inv_bind H.
  destruct (has_str_accessor a); [|discriminate]. injection H as <-.
  set (s1 := {| dty := Float64; values := to_numeric (str_replace (values a)) |}) in *.
  assert (Hg1 : getitem col (set_column col s1 df) = Ok s1)
    by (by eapply getitem_set_column_eq).
  split.
  - unfold strip_to_numeric. by rewrite Hg1.
  - unfold normalize_numeric_text. cbn [app run exec]. rewrite H', bind_Ok.
    assert (Him : imul col 1000 (set_column col s1 df)
                  = Ok (set_column col (mkSeries Float64 (mul_cell (kind_of s1) 1000 <$> values s1))
                          (set_column col s1 df)))
      by (unfold imul; by rewrite Hg1).
    rewrite Him, bind_Ok.
    assert (Hst : strip_to_numeric col
                    (set_column col (mkSeries Float64 (mul_cell (kind_of s1) 1000 <$> values s1))
                       (set_column col s1 df)) = Raise AttributeError).
    { unfold strip_to_numeric.
      by erewrite getitem_set_column_eq by exact Hg1. }
    by rewrite Hst.
Qed.

Lemma X6_strip_to_numeric_twice_raises_witness :
  run (normalize_numeric_text "annual_income" 1000 ++ normalize_numeric_text "annual_income" 1000)
      messy_df = Raise AttributeError.
Proof.
  destruct (strip_to_numeric "annual_income" messy_df) as [df1|e] eqn:H;
    [|vm_compute in H; discriminate].
  exact (proj2 (X6_strip_to_numeric_twice_raises "annual_income" messy_df df1 H)).
Defined.

Lemma relabel_category_other label col old new df df' :
  label <> col -> relabel_category col old new df = Ok df' ->
  getitem label df' = getitem label df.
Proof.
  intros Hne H. unfold relabel_category in H. inv_bind H. injection H as <-.
  by apply getitem_set_column_ne.
Qed.

Lemma coerce_numeric_Ok col old new df s :
  getitem col df = Ok s ->
  coerce_numeric col old new df
  = Ok (set_column col (mkSeries Float64 (coerce_values old new (values s))) df).
Proof. intros H. unfold coerce_numeric. by rewrite H. Qed.

Lemma impute_missing_Ok col df s :
  getitem col df = Ok s -> existsb is_str (values s) = false ->
  impute_missing col df
  = Ok (set_column col (mkSeries (dty s) (impute_values (values s))) df).
Proof.
  intros H Hs. unfold impute_missing. by rewrite H, bind_Ok, no_str_convertible.
Qed.

Lemma strip_to_numeric_numeric col df s :
  getitem col df = Ok s -> dty s = Float64 ->
  strip_to_numeric col df = Raise AttributeError.
Proof.
  intros H Hd. unfold strip_to_numeric, has_str_accessor. by rewrite H, bind_Ok, Hd.
Qed.

(** X7.  The notebook cannot be run again on the table it produced: the
    age statements and the fill succeed, and the income parse then raises
    [AttributeError], because the first run left a numeric income column. *)
Theorem X7_notebook_rerun_raises :
  forall (df df' : DataFrame),
    run notebook df = Ok df' -> run notebook df' = Raise AttributeError.
Proof.
  intros df df' H.
  unfold notebook in H. cbn [run exec] in H.
  inv_bind H. rename a into d1, Ha into H1.
  inv_bind H. rename a into d2, Ha into H2.
  inv_bind H. rename a into d3, Ha into H3.
  inv_bind H. rename a into d4, Ha into H4.
  inv_bind H. rename a into d5, Ha into H5.
  inv_bind H. rename a into d6, Ha into H6.
  inv_bind H. rename a into d7, Ha into H7.
  injection H as <-.
  (* the income column of the first result is numeric *)
  assert (Hinc : exists s, getitem "annual_income" d7 = Ok s /\ dty s = Float64).
  { rewrite (fun Hne => relabel_category_other "annual_income" _ _ _ _ _ Hne H7) by discriminate.
    rewrite (fun Hne => drop_column_other "annual_income" _ _ _ Hne H6) by discriminate.
    unfold strip_to_numeric in H4. inv_bind H4.
    destruct (has_str_accessor a); [|discriminate]. injection H4 as <-.
    unfold imul in H5.
    erewrite getitem_set_column_eq in H5 by exact Ha. rewrite bind_Ok in H5.
    injection H5 as <-.
    eexists. split.
    - eapply getitem_set_column_eq. by eapply getitem_set_column_eq.
    - reflexivity. }
  (* the age column of the first result exists *)
  assert (Hage : exists s, getitem "age" d7 = Ok s).
  { rewrite (fun Hne => relabel_category_other "age" _ _ _ _ _ Hne H7) by discriminate.
    rewrite (fun Hne => drop_column_other "age" _ _ _ Hne H6) by discriminate.
    rewrite (fun Hne => imul_other "age" _ _ _ _ Hne H5) by discriminate.
    rewrite (fun Hne => strip_to_numeric_other "age" _ _ _ Hne H4) by discriminate.
    rewrite (fill_categorical_getitem _ "age" _ _ H3).
    unfold impute_missing in H2. inv_bind H2.
    destruct (forallb convertible (values a)); [|discriminate]. injection H2 as <-.
    erewrite getitem_set_column_eq by exact Ha. eauto. }
  destruct Hinc as (si & Hgi & Hdi). destruct Hage as (sa & Hga).
  (* the second run *)
  unfold notebook. cbn [run exec].
  rewrite (coerce_numeric_Ok _ _ _ _ _ Hga), bind_Ok.
  set (sa1 := {| dty := Float64;
                 values := coerce_values "thirty-five" (Int 35) (values sa) |}).
  assert (Hga1 : getitem "age" (set_column "age" sa1 d7) = Ok sa1)
    by (by eapply getitem_set_column_eq).
  rewrite (impute_missing_Ok _ _ _ Hga1 (coerce_values_no_str _ _ _)), bind_Ok.
  set (d2' := set_column "age" _ (set_column "age" sa1 d7)).
  assert (Hgi2 : getitem "annual_income" d2' = Ok si).
  { unfold d2'. by rewrite !getitem_set_column_ne by discriminate. }
  change (fill_categorical fill_defaults d2')
    with (Ok (mkDataFrame (nrows d2') (fillna_column fill_defaults <$> columns d2'))).
  rewrite bind_Ok.
  assert (Hgi3 : getitem "annual_income"
                   (mkDataFrame (nrows d2') (fillna_column fill_defaults <$> columns d2'))
                 = Ok si).
  { rewrite getitem_fill_categorical, getitem_mk, Hgi2. reflexivity. }
  by rewrite (strip_to_numeric_numeric _ _ _ Hgi3 Hdi).
Qed.

Lemma X7_notebook_rerun_raises_witness :
  exists df', run notebook messy_df = Ok df' /\ run notebook df' = Raise AttributeError.
Proof.
  destruct (run notebook messy_df) as [df'|e] eqn:H; [|vm_compute in H; discriminate].
  exists df'. split; [reflexivity|].
  exact (X7_notebook_rerun_raises messy_df df' H).
Defined.

(** ** Relabelling *)

Lemma replace_lookup old new (l : list cell) (i : nat) :
  replace old new l !! i = replace_cell old new <$> l !! i.
Proof. unfold replace. apply list_lookup_fmap. Qed.

(** X9.  [relabel_category col old new] rewrites exactly the cells of the
    column that are the string [old]: these become [new], every other cell
    (another label, a number, NaN) and the dtype are kept; when [new]
    differs from [old] no cell is [old] afterwards. *)
Theorem X9_relabel_rewrites_exact_matches_only :
  forall (col old new : string) (df df' : DataFrame) (s : Series),
    getitem col df = Ok s ->
    relabel_category col old new df = Ok df' ->
    exists s',
      getitem col df' = Ok s'
      /\ dty s' = dty s
      /\ length (values s') = length (values s)
      /\ (forall i, values s !! i = Some (Str old) -> values s' !! i = Some (Str new))
      /\ (forall i c, values s !! i = Some c -> c <> Str old -> values s' !! i = Some c)
      /\ (old <> new -> Str old ∉ values s').
Proof.
  intros col old new df df' s Hg H.
  pose proof (relabel_category_getitem _ _ _ _ _ _ H Hg) as Hg'.
  eexists. split; [exact Hg'|]. simpl. split; [reflexivity|].
  split; [unfold replace; by rewrite length_fmap|]. split; [|split].
  - intros i Hc. rewrite replace_lookup, Hc. simpl.
    by rewrite bool_decide_eq_true_2.
  - intros i c Hc Hne. rewrite replace_lookup, Hc. simpl. f_equal.
    destruct c as [|x|t|z]; simpl; try reflexivity.
    case_bool_decide; [congruence | reflexivity].
  - intros Hne (c & Hc & _)%list_elem_of_fmap.
    destruct c as [|x|t|z]; simpl in Hc; try discriminate.
    case_bool_decide; congruence.
Qed.

Lemma X9_relabel_rewrites_exact_matches_only_witness :
  exists df' s',
    relabel_category "gender" "Other" "Non-binary" messy_df = Ok df'
    /\ getitem "gender" df' = Ok s'
    /\ values s' !! 5%nat = Some (Str "Non-binary")
    /\ values s' !! 0%nat = Some (Str "Female").
Proof.
  destruct (relabel_category "gender" "Other" "Non-binary" messy_df) as [df'|e] eqn:H;
    [|vm_compute in H; discriminate].
  destruct (X9_relabel_rewrites_exact_matches_only "gender" "Other" "Non-binary" messy_df df'
              _ eq_refl H) as (s' & Hs' & _ & _ & Hc & Hk & _).
  exists df', s'. split; [reflexivity|]. split; [exact Hs'|].
  split; [exact (Hc 5%nat eq_refl) | apply (Hk 0%nat (Str "Female") eq_refl); discriminate].
Defined.

(** ** The dictionary fill, column by column *)



(** ** Multiplying *)

Lemma imul_Ok col k df s :
  getitem col df = Ok s ->
  imul col k df
  = Ok (set_column col (mkSeries (dty s) (mul_cell (kind_of s) k <$> values s)) df).
Proof. intros H. unfold imul. by rewrite H. Qed.

(** ** Building the DataFrame *)




(** ** The table the notebook ends with *)

Lemma replace_no_missing old new (l : list cell) :
  isna new = false -> existsb isna l = false -> existsb isna (replace old new l) = false.
Proof.
  intros Hn. unfold replace. induction l as [|c l IH]; [reflexivity|]. cbn [existsb].
  intros [Hc Hl]%orb_false_elim. rewrite fmap_cons. cbn [existsb]. rewrite IH by done.
  rewrite orb_false_r. destruct c as [|x|s|z]; simpl in *; try done.
  by case_bool_decide.
Qed.

Lemma replace_removes old new (l : list cell) :
  old <> new -> Str old ∉ replace old (Str new) l.
Proof.
  intros Hne (c & Hc & _)%list_elem_of_fmap.
  destruct c as [|x|t|z]; simpl in Hc; try discriminate.
  case_bool_decide; congruence.
Qed.

Lemma drop_column_labels col df df' :
  drop_column col df = Ok df' ->
  (columns df').*1 = filter (fun l => l ≠ col) (columns df).*1.
Proof.
  intros H. unfold drop_column in H. case_bool_decide; [|discriminate].
  injection H as <-. apply filter_labels.
Qed.

(** ** When the statements succeed *)




Lemma strip_to_numeric_Ok col df s :
  getitem col df = Ok s -> has_str_accessor s = true ->
  strip_to_numeric col df
  = Ok (set_column col (mkSeries Float64 (to_numeric (str_replace (values s)))) df).
Proof. intros H Ha. unfold strip_to_numeric. by rewrite H, bind_Ok, Ha. Qed.





(** ** Rounding is exact on small whole numbers *)

Lemma round_half_even_1 (N : Z) : round_half_even N 1 = N.
Proof.
  unfold round_half_even. rewrite Z.div_1_r, Z.mod_1_r. reflexivity.
Qed.

Lemma Qred_inject_Z (z : Z) : Qred (inject_Z z) = inject_Z z.
Proof.
  unfold Qred, inject_Z.
  pose proof (Z.ggcd_gcd z 1) as Hg. pose proof (Z.ggcd_correct_divisors z 1) as Hd.
  destruct (Z.ggcd z 1) as [g [aa bb]]. simpl in Hg. rewrite Z.gcd_1_r in Hg. subst g.
  destruct Hd as [Ha Hb]. assert (bb = 1) as -> by lia. assert (aa = z) as -> by lia.
  reflexivity.
Qed.

Lemma round_mag_int (p : positive) :
  Zpos p < 2 ^ 53 -> round_mag (Zpos p) 1 = inject_Z (Zpos p).
Proof.
  intros Hlt. unfold round_mag, binade.
  change (Z.log2 1) with 0. rewrite Z.sub_0_r.
  pose proof (Z.log2_nonneg (Zpos p)) as Hnn.
  assert (Hpos : 0 < Zpos p) by lia.
  pose proof (Z.log2_spec (Zpos p) Hpos) as [Hlo Hhi].
  assert (Hle : Z.log2 (Zpos p) <= 52).
  { assert (Z.log2 (Zpos p) < 53); [|lia]. apply Z.log2_lt_pow2; lia. }
  rewrite (proj2 (Z.leb_le 0 (Z.log2 (Zpos p)))) by lia.
  rewrite (proj2 (Z.leb_le (1 * 2 ^ Z.log2 (Zpos p)) (Zpos p))) by lia.
  rewrite Z.max_l by lia.
  destruct (Z.leb_spec 0 (Z.log2 (Zpos p) - 52)) as [H0|H0].
  - assert (E : Z.log2 (Zpos p) - 52 = 0) by lia. rewrite E.
    change (1 * 2 ^ 0) with 1. rewrite round_half_even_1. f_equal. lia.
  - rewrite round_half_even_1.
    rewrite <- (Qred_inject_Z (Zpos p)). apply Qred_complete.
    unfold Qeq. cbn [Qnum Qden inject_Z].
    assert (0 < 2 ^ (- (Z.log2 (Zpos p) - 52))) by (apply Z.pow_pos_nonneg; lia).
    rewrite Z2Pos.id by lia. ring.
Qed.

Lemma round64_int (z : Z) :
  - 2 ^ 53 < z < 2 ^ 53 -> round64 (inject_Z z) = Fin (inject_Z z).
Proof.
  intros Hz. unfold round64. simpl Qnum. simpl Qden.
  destruct z as [|p|p]; [reflexivity| |].
  - rewrite round_mag_int by lia.
    replace (Qle_bool (inject_Z (2 ^ 1024)) (inject_Z (Z.pos p))) with false; [reflexivity|].
    symmetry. apply not_true_is_false. intros H%Qle_bool_imp_le.
    unfold Qle in H. simpl in H. lia.
  - rewrite round_mag_int by lia.
    replace (Qle_bool (inject_Z (2 ^ 1024)) (inject_Z (Z.pos p))) with false; [reflexivity|].
    symmetry. apply not_true_is_false. intros H%Qle_bool_imp_le.
    unfold Qle in H. simpl in H. lia.
Qed.

(** ** The scanner on digits and points *)

(** Facts about single characters, by enumeration of the 256 of them. *)
Ltac by_char c :=
  destruct c as [[] [] [] [] [] [] [] []]; vm_compute; try discriminate; try reflexivity;
  try (intros; discriminate); try (intros; congruence).

Lemma digit_not_dot c : is_digit c = true -> is_dot c = false.
Proof. by_char c. Qed.

Lemma kept_not_space c : kept c = true -> is_space c = false.
Proof. by_char c. Qed.

Lemma kept_no_sign c :
  kept c = true -> bool_decide (c = "-"%char) = false /\ bool_decide (c = "+"%char) = false.
Proof. intros H. split; apply bool_decide_eq_false; intros ->; vm_compute in H; discriminate. Qed.

Lemma kept_not_e c : kept c = true -> bool_decide (to_lower c = "e"%char) = false.
Proof. by_char c. Qed.

Lemma kept_lower_first c :
  kept c = true -> to_lower c <> "i"%char /\ to_lower c <> "+"%char /\ to_lower c <> "-"%char.
Proof.
  intros H. repeat split; intros E; revert H E; by_char c.
Qed.

Lemma is_dot_eq c : is_dot c = true -> c = "."%char.
Proof. unfold is_dot. apply bool_decide_eq_true_1. Qed.

Lemma chars_strip (s : string) :
  list_ascii_of_string (strip_non_numeric s)
  = filter (fun c => kept c = true) (list_ascii_of_string s).
Proof.
  induction s as [|c s IH]; [reflexivity|]. simpl.
  destruct (kept c) eqn:Hk.
  - rewrite filter_cons_True by done. simpl. by rewrite IH.
  - rewrite filter_cons_False by congruence. exact IH.
Qed.

Lemma num_of_app (a b : list ascii) :
  num_of (a ++ b) = num_of a * 10 ^ Z.of_nat (length b) + num_of b.
Proof.
  induction a as [|c a IH]; simpl num_of; [lia|].
  rewrite IH, length_app, Nat2Z.inj_add, Z.pow_add_r by lia. simpl app. ring.
Qed.

(** A string of digits and points starts with digits, and then ends or
    goes on with a point. *)
Lemma kept_shape (l : list ascii) :
  Forall (fun c => kept c = true) l ->
  exists ip r, l = ip ++ r /\ Forall (fun c => is_digit c = true) ip
    /\ (r = [] \/ exists r', r = "."%char :: r' /\ Forall (fun c => kept c = true) r').
Proof.
  induction 1 as [|c l Hc Hl IH].
  - exists [], []. split; [reflexivity|]. split; [constructor | by left].
  - destruct (is_digit c) eqn:Hd.
    + destruct IH as (ip & r & -> & Hip & Hr).
      exists (c :: ip), r. split; [reflexivity|]. split; [by constructor | exact Hr].
    + exists [], (c :: l). split; [reflexivity|]. split; [constructor|].
      right. exists l. split; [|exact Hl].
      unfold kept in Hc. rewrite Hd in Hc. simpl in Hc. by rewrite (is_dot_eq c Hc).
Qed.


Lemma filter_dot_digits (ds : list ascii) :
  Forall (fun c => is_digit c = true) ds -> filter (fun c => is_dot c = true) ds = [].
Proof.
  induction 1 as [|c ds Hc Hds IH]; [reflexivity|].
  rewrite filter_cons_False; [exact IH|]. rewrite digit_not_dot by done. discriminate.
Qed.

Lemma existsb_digits (ds : list ascii) :
  Forall (fun c => is_digit c = true) ds ->
  existsb is_digit ds = negb (length ds =? 0)%nat.
Proof. destruct 1 as [|c ds Hc Hds]; [reflexivity|]. simpl. by rewrite Hc. Qed.

Lemma skip_space_kept (l : list ascii) :
  match l with [] => True | c :: _ => kept c = true end -> skip_space l = l.
Proof. destruct l as [|c l]; [reflexivity|]. intros H. simpl. by rewrite kept_not_space. Qed.

Lemma read_sign_kept (l : list ascii) :
  match l with [] => True | c :: _ => kept c = true end -> read_sign l = (false, l).
Proof.
  destruct l as [|c l]; [reflexivity|]. intros H. simpl.
  destruct (kept_no_sign c H) as [-> ->]. reflexivity.
Qed.

Lemma read_exponent_kept (l : list ascii) :
  match l with [] => True | c :: _ => kept c = true end ->
  forall ex, read_exponent ex l = (ex, false, l).
Proof.
  destruct l as [|c l]; [reflexivity|]. intros H ex. simpl. by rewrite kept_not_e.
Qed.

Lemma existsb_digit_filter_kept (l : list ascii) :
  existsb is_digit (filter (fun c => kept c = true) l) = existsb is_digit l.
Proof.
  induction l as [|c l IH]; [reflexivity|].
  destruct (kept c) eqn:Hk.
  - rewrite filter_cons_True by done. simpl. by rewrite IH.
  - rewrite filter_cons_False by congruence. simpl. rewrite IH.
    unfold kept in Hk. apply orb_false_elim in Hk as [-> _]. reflexivity.
Qed.

Lemma filter_dot_filter_kept (l : list ascii) :
  filter (fun c => is_dot c = true) (filter (fun c => kept c = true) l)
  = filter (fun c => is_dot c = true) l.
Proof.
  induction l as [|c l IH]; [reflexivity|].
  destruct (kept c) eqn:Hk.
  - rewrite (filter_cons_True (fun c => kept c = true)) by done.
    destruct (is_dot c) eqn:Hd.
    + rewrite !(filter_cons_True (fun c => is_dot c = true)) by done. by rewrite IH.
    + rewrite !(filter_cons_False (fun c => is_dot c = true)) by congruence. exact IH.
  - rewrite (filter_cons_False (fun c => kept c = true)) by congruence.
    unfold kept in Hk. apply orb_false_elim in Hk as [_ Hd].
    rewrite (filter_cons_False (fun c => is_dot c = true)) by congruence. exact IH.
Qed.

Lemma kept_filter_kept (l : list ascii) :
  Forall (fun c => kept c = true) (filter (fun c => kept c = true) l).
Proof. apply Forall_forall. by intros c [H _]%list_elem_of_filter. Qed.

Lemma digit_val_nonneg c : is_digit c = true -> 0 <= digit_val c.
Proof. destruct c as [[] [] [] [] [] [] [] []]; vm_compute; congruence. Qed.

Lemma num_of_nonneg (ds : list ascii) :
  Forall (fun c => is_digit c = true) ds -> 0 <= num_of ds.
Proof.
  induction 1 as [|c ds Hc Hds IH]; simpl; [lia|].
  pose proof (digit_val_nonneg c Hc).
  assert (0 <= 10 ^ Z.of_nat (length ds)) by (apply Z.pow_nonneg; lia). nia.
Qed.

Lemma filter_digits_Forall (l : list ascii) :
  Forall (fun c => is_digit c = true) (filter (fun c => is_digit c = true) l).
Proof. apply Forall_forall. by intros c [H _]%list_elem_of_filter. Qed.


Lemma digit_val_le_9 c : is_digit c = true -> digit_val c <= 9.
Proof. destruct c as [[] [] [] [] [] [] [] []]; vm_compute; congruence. Qed.

Lemma digit_not_space c : is_digit c = true -> is_space c = false.
Proof. intros H. apply kept_not_space. unfold kept. by rewrite H. Qed.

Lemma num_of_lt (ds : list ascii) :
  Forall (fun c => is_digit c = true) ds -> num_of ds < 10 ^ Z.of_nat (length ds).
Proof.
  induction 1 as [|c ds Hc Hds IH]; [simpl; lia|].
  simpl num_of. simpl length. rewrite Nat2Z.inj_succ, Z.pow_succ_r by lia.
  pose proof (digit_val_le_9 c Hc).
  assert (0 < 10 ^ Z.of_nat (length ds)) by (apply Z.pow_pos_nonneg; lia). nia.
Qed.

Lemma inject_Z_plus_eq (a b : Z) : (inject_Z a + inject_Z b)%Q = inject_Z (a + b).
Proof. unfold Qplus, inject_Z. cbn [Qnum Qden]. f_equal. ring. Qed.

Lemma inject_Z_mult_eq (a b : Z) : (inject_Z a * inject_Z b)%Q = inject_Z (a * b).
Proof. reflexivity. Qed.

Lemma push_digit_exact (n : Z) (c : ascii) :
  0 <= n -> n * 10 + 9 < 2 ^ 53 -> is_digit c = true ->
  push_digit (inject_Z n) c = inject_Z (n * 10 + digit_val c).
Proof.
  intros Hn Hb Hc. unfold push_digit.
  pose proof (digit_val_nonneg c Hc). pose proof (digit_val_le_9 c Hc).
  change 10%Q with (inject_Z 10). rewrite inject_Z_mult_eq.
  rewrite round64_int by lia. cbn [fin].
  rewrite inject_Z_plus_eq. rewrite round64_int by lia. reflexivity.
Qed.

Lemma pow10_15 : 10 ^ 15 < 2 ^ 53.
Proof. reflexivity. Qed.

(** Up to 15 digits go into [number] without rounding. *)
Lemma read_digits_exact (ds r : list ascii) (n : Z) (nd : nat) (ex : Z) :
  Forall (fun c => is_digit c = true) ds ->
  match r with [] => True | c :: _ => is_digit c = false end ->
  (nd + length ds <= 15)%nat ->
  0 <= n < 10 ^ Z.of_nat nd ->
  read_digits (inject_Z n) nd ex (ds ++ r)
  = (inject_Z (n * 10 ^ Z.of_nat (length ds) + num_of ds), (nd + length ds)%nat, ex, r).
Proof.
  intros Hds Hr. revert n nd. induction Hds as [|d ds Hd Hds IH]; intros n nd Hlen Hn.
  - simpl. destruct r as [|c r]; simpl.
    + do 3 f_equal; [f_equal; lia | lia].
    + rewrite Hr. do 3 f_equal; [f_equal; lia | lia].
  - simpl app. simpl read_digits. rewrite Hd. simpl length in Hlen.
    rewrite (proj2 (Nat.ltb_lt nd 17)) by lia.
    assert (Hp : 10 ^ Z.of_nat nd <= 10 ^ 14) by (apply Z.pow_le_mono_r; lia).
    pose proof pow10_15 as H15. change (10 ^ 15) with (10 * 10 ^ 14) in H15.
    rewrite push_digit_exact by (done || lia).
    pose proof (digit_val_nonneg d Hd). pose proof (digit_val_le_9 d Hd).
    rewrite IH.
    + simpl num_of. simpl length. rewrite Nat2Z.inj_succ, Z.pow_succ_r by lia.
      do 3 f_equal; [f_equal; ring | lia].
    + lia.
    + rewrite Nat2Z.inj_succ, Z.pow_succ_r by lia. lia.
Qed.

Lemma read_decimals_exact (ds r : list ascii) (n : Z) (nd k : nat) :
  Forall (fun c => is_digit c = true) ds ->
  match r with [] => True | c :: _ => is_digit c = false end ->
  (nd + length ds <= 15)%nat ->
  0 <= n < 10 ^ Z.of_nat nd ->
  read_decimals (inject_Z n) nd k (ds ++ r)
  = (inject_Z (n * 10 ^ Z.of_nat (length ds) + num_of ds), (nd + length ds)%nat,
     (k + length ds)%nat, r).
Proof.
  intros Hds Hr. revert n nd k. induction Hds as [|d ds Hd Hds IH]; intros n nd k Hlen Hn.
  - simpl. destruct r as [|c r]; simpl.
    + f_equal. f_equal; [f_equal; [f_equal; lia | lia] | lia].
    + rewrite Hr. f_equal. f_equal; [f_equal; [f_equal; lia | lia] | lia].
  - simpl app. simpl read_decimals. rewrite Hd. simpl length in Hlen.
    rewrite (proj2 (Nat.ltb_lt nd 17)) by lia.
    assert (Hp : 10 ^ Z.of_nat nd <= 10 ^ 14) by (apply Z.pow_le_mono_r; lia).
    pose proof pow10_15 as H15. change (10 ^ 15) with (10 * 10 ^ 14) in H15.
    rewrite push_digit_exact by (done || lia).
    pose proof (digit_val_nonneg d Hd). pose proof (digit_val_le_9 d Hd).
    rewrite IH.
    + simpl num_of. simpl length. rewrite Nat2Z.inj_succ, Z.pow_succ_r by lia.
      f_equal. f_equal; [f_equal; [f_equal; ring | lia] | lia].
    + lia.
    + rewrite Nat2Z.inj_succ, Z.pow_succ_r by lia. lia.
Qed.

(** Whatever their number, the digits are read up to the first character
    that is none; a digit was kept unless there was none. *)
Lemma read_digits_rest (ds r : list ascii) (number : Q) (nd : nat) (ex : Z) :
  Forall (fun c => is_digit c = true) ds ->
  match r with [] => True | c :: _ => is_digit c = false end ->
  exists number' nd' ex',
    read_digits number nd ex (ds ++ r) = (number', nd', ex', r)
    /\ (nd <= nd')%nat /\ (ds <> [] -> nd' <> 0%nat).
Proof.
  intros Hds Hr. revert number nd ex.
  induction Hds as [|d ds Hd Hds IH]; intros number nd ex.
  - exists number, nd, ex. split; [|split; [lia | done]].
    simpl. destruct r as [|c r]; [reflexivity|]. simpl. by rewrite Hr.
  - simpl app. simpl read_digits. rewrite Hd.
    destruct (nd <? 17)%nat eqn:Hlt.
    + destruct (IH (push_digit number d) (S nd) ex) as (n' & nd' & ex' & -> & Hle & _).
      exists n', nd', ex'. split; [reflexivity|]. split; lia.
    + destruct (IH number nd (ex + 1)) as (n' & nd' & ex' & -> & Hle & _).
      exists n', nd', ex'. split; [reflexivity|]. split; [lia|].
      intros _. apply Nat.ltb_ge in Hlt. lia.
Qed.

Lemma read_decimals_rest (ds r : list ascii) (number : Q) (nd k : nat) :
  Forall (fun c => is_digit c = true) ds ->
  match r with [] => True | c :: _ => is_digit c = false end ->
  exists number' nd' k',
    read_decimals number nd k (ds ++ r) = (number', nd', k', r)
    /\ (nd <= nd')%nat /\ (ds <> [] -> nd' <> 0%nat).
Proof.
  intros Hds Hr. revert number nd k.
  induction Hds as [|d ds Hd Hds IH]; intros number nd k.
  - exists number, nd, k. split; [|split; [lia | done]].
    simpl. destruct r as [|c r]; [reflexivity|]. simpl. by rewrite Hr.
  - simpl app. simpl read_decimals. rewrite Hd.
    destruct (nd <? 17)%nat eqn:Hlt.
    + destruct (IH (push_digit number d) (S nd) (S k)) as (n' & nd' & k' & -> & Hle & _).
      exists n', nd', k'. split; [reflexivity|]. split; lia.
    + destruct (IH number nd k) as (n' & nd' & k' & -> & Hle & _).
      exists n', nd', k'. split; [reflexivity|]. split; [lia|].
      intros _. apply Nat.ltb_ge in Hlt. lia.
Qed.

(** ** Rounding stays finite *)

Lemma round_half_even_le (N D : Z) : round_half_even N D <= N / D + 1.
Proof.
  unfold round_half_even.
  destruct (2 * (N mod D) <? D); [lia|].
  destruct (D <? 2 * (N mod D)); [lia|].
  destruct (Z.even (N / D)); lia.
Qed.

Lemma round_half_even_nonneg (N D : Z) : 0 <= N -> 0 < D -> 0 <= round_half_even N D.
Proof.
  intros HN HD. unfold round_half_even.
  assert (0 <= N / D) by (apply Z.div_pos; lia).
  destruct (2 * (N mod D) <? D); [lia|].
  destruct (D <? 2 * (N mod D)); [lia|].
  destruct (Z.even (N / D)); lia.
Qed.

Lemma binade_le (n : Z) (d : positive) (M : Z) :
  0 < n -> 0 <= M -> n < 2 ^ M * Zpos d -> binade n d <= M - 1.
Proof.
  intros Hn HM Hlt. unfold binade.
  assert (Hd : 0 < Zpos d) by lia.
  pose proof (Z.log2_spec n Hn) as [Hn1 Hn2].
  pose proof (Z.log2_spec (Zpos d) Hd) as [Hd1 Hd2].
  pose proof (Z.log2_nonneg n). pose proof (Z.log2_nonneg (Zpos d)).
  set (a := Z.log2 n) in *. set (b := Z.log2 (Zpos d)) in *.
  assert (Hab : a - b <= M).
  { destruct (Z.le_gt_cases (a - b) M) as [|Hgt]; [done|exfalso].
    assert (2 ^ (M + b + 1) <= 2 ^ a) by (apply Z.pow_le_mono_r; lia).
    rewrite Z.pow_add_r, Z.pow_add_r in H1 by lia.
    rewrite Z.pow_succ_r in Hd2 by lia.
    assert (0 < 2 ^ M) by (apply Z.pow_pos_nonneg; lia).
    assert (0 < 2 ^ b) by (apply Z.pow_pos_nonneg; lia). nia. }
  destruct (Z.eq_dec (a - b) M) as [E|NE].
  - rewrite E. rewrite (proj2 (Z.leb_le 0 M)) by lia.
    rewrite (proj2 (Z.leb_gt (Zpos d * 2 ^ M) n)) by lia. lia.
  - match goal with |- (if ?c then _ else _) <= _ => destruct c end; lia.
Qed.

(** A number below [2^53] in size rounds to a number of at most that
    size. *)
Lemma round_mag_le (p d : positive) :
  Zpos p < 2 ^ 53 * Zpos d -> (round_mag (Zpos p) d <= inject_Z (2 ^ 53))%Q.
Proof.
  intros Hlt. unfold round_mag.
  pose proof (binade_le (Zpos p) d 53 ltac:(lia) ltac:(lia) Hlt) as Hb.
  set (s := Z.max (binade (Zpos p) d - 52) (-1074)).
  assert (Hs : s <= 0) by (unfold s; lia).
  assert (Hs' : -1074 <= s) by (unfold s; lia).
  destruct (Z.leb_spec 0 s) as [H0|H0].
  - assert (s = 0) as -> by lia. change (2 ^ 0) with 1. rewrite !Z.mul_1_r.
    rewrite <- Zle_Qle.
    pose proof (round_half_even_le (Zpos p) (Zpos d)).
    assert (Zpos p / Zpos d < 2 ^ 53) by (apply Z.div_lt_upper_bound; lia). lia.
  - rewrite Qred_correct.
    assert (Hp : 0 < 2 ^ (- s)) by (apply Z.pow_pos_nonneg; lia).
    unfold Qle. cbn [Qnum Qden inject_Z]. rewrite Z2Pos.id by lia.
    pose proof (round_half_even_le (Zpos p * 2 ^ (- s)) (Zpos d)).
    assert (Zpos p * 2 ^ (- s) / Zpos d < 2 ^ 53 * 2 ^ (- s)).
    { apply Z.div_lt_upper_bound; [lia|]. nia. }
    lia.
Qed.

Lemma round_mag_nonneg (p d : positive) : (0 <= round_mag (Zpos p) d)%Q.
Proof.
  unfold round_mag.
  set (s := Z.max (binade (Zpos p) d - 52) (-1074)).
  destruct (Z.leb_spec 0 s) as [H0|H0].
  - change 0%Q with (inject_Z 0). rewrite <- Zle_Qle.
    assert (0 < 2 ^ s) by (apply Z.pow_pos_nonneg; lia).
    pose proof (round_half_even_nonneg (Zpos p) (Zpos d * 2 ^ s) ltac:(lia) ltac:(lia)). lia.
  - rewrite Qred_correct. unfold Qle. cbn [Qnum Qden].
    assert (0 < 2 ^ (- s)) by (apply Z.pow_pos_nonneg; lia).
    pose proof (round_half_even_nonneg (Zpos p * 2 ^ (- s)) (Zpos d) ltac:(lia) ltac:(lia)). lia.
Qed.

Lemma round64_finite (q : Q) :
  (- inject_Z (2 ^ 53) < q < inject_Z (2 ^ 53))%Q -> is_inf (round64 q) = false.
Proof.
  intros [Hlo Hhi]. destruct q as [n d]. unfold Qlt in Hlo, Hhi. cbn [Qnum Qden inject_Z Qopp] in *.
  unfold round64. cbn [Qnum Qden].
  destruct n as [|p|p]; [reflexivity| |].
  - pose proof (round_mag_le p d ltac:(lia)) as Hle.
    destruct (Qle_bool _ _) eqn:E; [|reflexivity].
    apply Qle_bool_imp_le in E. exfalso.
    pose proof (Qle_trans _ _ _ E Hle) as H. rewrite <- Zle_Qle in H. lia.
  - pose proof (round_mag_le p d ltac:(lia)) as Hle.
    destruct (Qle_bool _ _) eqn:E; [|reflexivity].
    apply Qle_bool_imp_le in E. exfalso.
    pose proof (Qle_trans _ _ _ E Hle) as H. rewrite <- Zle_Qle in H. lia.
Qed.

Lemma round64_Fin_fin (q : Q) : is_inf (round64 q) = false -> Fin (fin (round64 q)) = round64 q.
Proof. destruct (round64 q); simpl; congruence. Qed.

(** ** The scanner on whole numbers and decimals *)

Lemma pow10_64_exact (k : Z) : 0 <= k <= 15 -> pow10_64 k = inject_Z (10 ^ k).
Proof.
  intros Hk. unfold pow10_64.
  assert (0 < 10 ^ k) by (apply Z.pow_pos_nonneg; lia).
  assert (10 ^ k <= 10 ^ 15) by (apply Z.pow_le_mono_r; lia).
  pose proof pow10_15.
  rewrite round64_int by lia. reflexivity.
Qed.

Lemma head_digit_kept (ds r : list ascii) :
  Forall (fun c => is_digit c = true) ds ->
  match r with [] => True | c :: _ => kept c = true end ->
  match ds ++ r with [] => True | c :: _ => kept c = true end.
Proof.
  intros Hds Hr. destruct Hds as [|c ds Hc _]; [exact Hr|].
  simpl. unfold kept. by rewrite Hc.
Qed.

(** The scanner on a string of at most 15 digits: the whole number, and
    the mark of an integer. *)
Lemma precise_xstrtod_digits (ds : list ascii) :
  Forall (fun c => is_digit c = true) ds -> ds <> [] -> (length ds <= 15)%nat ->
  precise_xstrtod ds = Some (inject_Z (num_of ds), true).
Proof.
  intros Hds Hne Hlen. unfold precise_xstrtod.
  pose proof (head_digit_kept ds [] Hds I) as Hh. rewrite app_nil_r in Hh.
  rewrite skip_space_kept, read_sign_kept by exact Hh.
  rewrite <- (app_nil_r ds) at 1.
  change 0%Q with (inject_Z 0).
  rewrite read_digits_exact by (done || simpl; lia).
  rewrite Z.mul_0_l, Z.add_0_l. cbn [Nat.add].
  destruct ds as [|d ds]; [done|]. cbn [length Nat.eqb].
  cbn [read_exponent].
  unfold scale10. cbn [Z.ltb Z.compare Z.opp].
  rewrite pow10_64_exact by lia. change (inject_Z (10 ^ (- 0))) with 1%Q.
  assert (Hq : (inject_Z (num_of (d :: ds)) / 1)%Q = inject_Z (num_of (d :: ds) * 1))
    by reflexivity.
  rewrite Hq, Z.mul_1_r.
  pose proof (num_of_lt (d :: ds) Hds) as Hlt.
  pose proof (num_of_nonneg (d :: ds) Hds) as Hnn.
  assert (10 ^ Z.of_nat (length (d :: ds)) <= 10 ^ 15) by (apply Z.pow_le_mono_r; lia).
  pose proof pow10_15.
  rewrite round64_int by lia. reflexivity.
Qed.

Lemma Qdiv_pow10_bounds (n k : Z) :
  0 <= n < 2 ^ 53 -> 0 <= k ->
  (- inject_Z (2 ^ 53) < inject_Z n / inject_Z (10 ^ k) < inject_Z (2 ^ 53))%Q.
Proof.
  intros Hn Hk.
  assert (Hp : 0 < 10 ^ k) by (apply Z.pow_pos_nonneg; lia).
  assert (Hq : (0 < inject_Z (10 ^ k))%Q)
    by (change 0%Q with (inject_Z 0); rewrite <- Zlt_Qlt; lia).
  split.
  - apply Qlt_le_trans with 0%Q; [reflexivity|].
    apply Qle_shift_div_l; [exact Hq|]. rewrite Qmult_0_l.
    change 0%Q with (inject_Z 0). rewrite <- Zle_Qle. lia.
  - apply Qlt_shift_div_r; [exact Hq|].
    rewrite <- inject_Z_mult. rewrite <- Zlt_Qlt. nia.
Qed.

(** The scanner on digits, a point and digits, at most 15 digits in all:
    the float nearest to the decimal number, and no mark of an integer. *)
Lemma precise_xstrtod_decimal (ip fp : list ascii) :
  Forall (fun c => is_digit c = true) ip -> Forall (fun c => is_digit c = true) fp ->
  ip ++ fp <> [] -> (length ip + length fp <= 15)%nat ->
  precise_xstrtod (ip ++ "."%char :: fp)
  = Some (fin (round64 (inject_Z (num_of (ip ++ fp)) / inject_Z (10 ^ Z.of_nat (length fp)))),
          false)
  /\ is_inf (round64 (inject_Z (num_of (ip ++ fp)) / inject_Z (10 ^ Z.of_nat (length fp))))
     = false.
Proof.
  intros Hip Hfp Hne Hlen.
  assert (Hall : Forall (fun c => is_digit c = true) (ip ++ fp)) by (by apply Forall_app).
  pose proof (num_of_lt _ Hall) as Hlt. pose proof (num_of_nonneg _ Hall) as Hnn.
  assert (10 ^ Z.of_nat (length (ip ++ fp)) <= 10 ^ 15).
  { apply Z.pow_le_mono_r; [lia|]. rewrite length_app. lia. }
  pose proof pow10_15.
  assert (Hfin : is_inf (round64 (inject_Z (num_of (ip ++ fp))
                                  / inject_Z (10 ^ Z.of_nat (length fp)))) = false).
  { apply round64_finite, Qdiv_pow10_bounds; lia. }
  split; [|exact Hfin].
  unfold precise_xstrtod.
  assert (Hh : match ip ++ "."%char :: fp with [] => True | c :: _ => kept c = true end).
  { apply head_digit_kept; [exact Hip | reflexivity]. }
  rewrite skip_space_kept, read_sign_kept by exact Hh.
  change 0%Q with (inject_Z 0).
  rewrite read_digits_exact by (done || simpl; lia).
  rewrite Z.mul_0_l, Z.add_0_l. cbn [Nat.add].
  change (is_dot "."%char) with true. cbv iota.
  rewrite <- (app_nil_r fp) at 1.
  pose proof (num_of_lt _ Hip). pose proof (num_of_nonneg _ Hip).
  rewrite read_decimals_exact by (done || lia).
  rewrite <- num_of_app. cbn [Nat.add].
  destruct (length ip + length fp =? 0)%nat eqn:E.
  { apply Nat.eqb_eq in E. destruct ip, fp; simpl in *; (done || lia). }
  cbn [read_exponent]. unfold scale10.
  rewrite (proj2 (Z.ltb_ge 308 (0 - Z.of_nat (length fp)))) by lia.
  rewrite (proj2 (Z.ltb_ge 0 (0 - Z.of_nat (length fp)))) by lia.
  rewrite (proj2 (Z.ltb_ge (0 - Z.of_nat (length fp)) (-308))) by lia.
  replace (- (0 - Z.of_nat (length fp))) with (Z.of_nat (length fp)) by lia.
  rewrite pow10_64_exact by lia.
  rewrite Hfin. reflexivity.
Qed.

Lemma Forall_kept_no_digit_head (l : list ascii) :
  Forall (fun c => kept c = true) l -> existsb is_digit l = false ->
  l = [] \/ exists r, l = "."%char :: r /\ Forall (fun c => kept c = true) r
                     /\ existsb is_digit r = false.
Proof.
  intros Hk Hd. destruct Hk as [|c l Hc Hl]; [by left|]. right.
  simpl in Hd. apply orb_false_iff in Hd as [Hd1 Hd2].
  unfold kept in Hc. rewrite Hd1 in Hc. simpl in Hc.
  exists l. by rewrite (is_dot_eq c Hc).
Qed.

Lemma read_digits_no_digit (l : list ascii) (number : Q) (nd : nat) (ex : Z) :
  match l with [] => True | c :: _ => is_digit c = false end ->
  read_digits number nd ex l = (number, nd, ex, l).
Proof. destruct l as [|c l]; [reflexivity|]. intros H. simpl. by rewrite H. Qed.

Lemma read_decimals_no_digit (l : list ascii) (number : Q) (nd k : nat) :
  match l with [] => True | c :: _ => is_digit c = false end ->
  read_decimals number nd k l = (number, nd, k, l).
Proof. destruct l as [|c l]; [reflexivity|]. intros H. simpl. by rewrite H. Qed.

(** Without a digit there is no number. *)
Lemma precise_xstrtod_no_digit (l : list ascii) :
  Forall (fun c => kept c = true) l -> existsb is_digit l = false ->
  precise_xstrtod l = None.
Proof.
  intros Hk Hd.
  destruct (Forall_kept_no_digit_head l Hk Hd) as [->|(r & -> & Hr & Hdr)]; [reflexivity|].
  unfold precise_xstrtod.
  rewrite skip_space_kept, read_sign_kept by reflexivity.
  rewrite read_digits_no_digit by reflexivity.
  change (is_dot "."%char) with true. cbv iota.
  rewrite read_decimals_no_digit; [reflexivity|].
  destruct (Forall_kept_no_digit_head r Hr Hdr) as [->|(r' & -> & _)]; [done | reflexivity].
Qed.

Lemma dots_digits_app (ds r : list ascii) :
  Forall (fun c => is_digit c = true) ds ->
  length (filter (fun c => is_dot c = true) (ds ++ r))
  = length (filter (fun c => is_dot c = true) r).
Proof. intros H. by rewrite filter_app, filter_dot_digits, app_nil_l. Qed.

(** Nor is there one when a second point follows. *)
Lemma precise_xstrtod_two_dots (l : list ascii) :
  Forall (fun c => kept c = true) l ->
  (2 <= length (filter (fun c => is_dot c = true) l))%nat ->
  precise_xstrtod l = None.
Proof.
  intros Hk Hd.
  destruct (kept_shape l Hk) as (ip & r & -> & Hip & Hr).
  rewrite dots_digits_app in Hd by done.
  destruct Hr as [->|(r' & -> & Hr')]; [simpl in Hd; lia|].
  rewrite filter_cons_True in Hd by reflexivity. simpl in Hd.
  destruct (kept_shape r' Hr') as (fp & r2 & -> & Hfp & Hr2).
  rewrite dots_digits_app in Hd by done.
  destruct Hr2 as [->|(r3 & -> & Hr3)]; [simpl in Hd; lia|].
  unfold precise_xstrtod.
  assert (Hh : match ip ++ "."%char :: fp ++ "."%char :: r3 with
               | [] => True | c :: _ => kept c = true end).
  { apply head_digit_kept; [exact Hip | reflexivity]. }
  rewrite skip_space_kept, read_sign_kept by exact Hh.
  destruct (read_digits_rest ip ("."%char :: fp ++ "."%char :: r3) 0 0 0 Hip)
    as (n1 & nd1 & ex1 & -> & _); [reflexivity|].
  change (is_dot "."%char) with true. cbv iota.
  destruct (read_decimals_rest fp ("."%char :: r3) n1 nd1 0 Hfp)
    as (n2 & nd2 & k2 & -> & _); [reflexivity|].
  destruct (nd2 =? 0)%nat; [reflexivity|].
  rewrite read_exponent_kept by reflexivity.
  destruct (is_inf _); [reflexivity|].
  rewrite skip_space_kept by reflexivity. reflexivity.
Qed.

(** ** Stripped texts *)

Lemma filter_kept_no_dot (l : list ascii) :
  length (filter (fun c => is_dot c = true) l) = 0%nat ->
  filter (fun c => kept c = true) l = filter (fun c => is_digit c = true) l.
Proof.
  induction l as [|c l IH]; [reflexivity|]. intros H.
  destruct (is_dot c) eqn:Hd.
  - rewrite filter_cons_True in H by done. discriminate.
  - rewrite filter_cons_False in H by congruence.
    destruct (is_digit c) eqn:Hg.
    + rewrite filter_cons_True by (unfold kept; by rewrite Hg).
      rewrite (filter_cons_True (fun c => is_digit c = true)) by done.
      f_equal. exact (IH H).
    + rewrite filter_cons_False by (unfold kept; rewrite Hg, Hd; discriminate).
      rewrite (filter_cons_False (fun c => is_digit c = true)) by congruence.
      exact (IH H).
Qed.

Lemma filter_kept_one_dot (l : list ascii) :
  length (filter (fun c => is_dot c = true) l) = 1%nat ->
  exists ip, Forall (fun c => is_digit c = true) ip
    /\ filter (fun c => kept c = true) l
       = ip ++ "."%char :: filter (fun c => is_digit c = true) (after_dot l)
    /\ filter (fun c => is_digit c = true) l
       = ip ++ filter (fun c => is_digit c = true) (after_dot l).
Proof.
  induction l as [|c l IH]; [discriminate|]. intros H.
  destruct (is_dot c) eqn:Hd.
  - rewrite filter_cons_True in H by done. simpl in H. injection H as H.
    exists []. split; [constructor|]. simpl after_dot. rewrite Hd.
    assert (Hg : is_digit c = false).
    { destruct (is_digit c) eqn:Hg; [|reflexivity]. by rewrite (digit_not_dot c Hg) in Hd. }
    split.
    + rewrite filter_cons_True by (unfold kept; by rewrite Hd, orb_true_r).
      rewrite (is_dot_eq c Hd). simpl. f_equal. by apply filter_kept_no_dot.
    + rewrite filter_cons_False by congruence. reflexivity.
  - rewrite filter_cons_False in H by congruence.
    destruct (IH H) as (ip & Hip & E1 & E2). simpl after_dot. rewrite Hd.
    destruct (is_digit c) eqn:Hg.
    + exists (c :: ip). split; [by constructor|]. split.
      * rewrite filter_cons_True by (unfold kept; by rewrite Hg). rewrite E1. reflexivity.
      * rewrite filter_cons_True by done. rewrite E2. reflexivity.
    + exists ip. split; [exact Hip|]. split.
      * rewrite filter_cons_False by (unfold kept; rewrite Hg, Hd; discriminate). exact E1.
      * rewrite filter_cons_False by congruence. exact E2.
Qed.

(** A stripped text is none of the spellings of infinity. *)
Lemma floatify_stripped (s : string) :
  floatify (strip_non_numeric s)
  = (fun p : Q * bool => (Fin p.1, p.2))
      <$> precise_xstrtod (list_ascii_of_string (strip_non_numeric s)).
Proof.
  unfold floatify.
  destruct (precise_xstrtod _) as [[q b]|]; [reflexivity|]. simpl.
  pose proof (kept_filter_kept (list_ascii_of_string s)) as Hk.
  rewrite <- chars_strip in Hk.
  destruct (strip_non_numeric s) as [|c t]; [reflexivity|].
  simpl in Hk. inversion Hk as [|? ? Hc _]; subst.
  destruct (kept_lower_first c Hc) as (Hi & Hp & Hm).
  simpl lower.
  rewrite !bool_decide_eq_false_2; [reflexivity|..]; intros [= E _]; congruence.
Qed.

Lemma take_digits_all (ds : list ascii) :
  Forall (fun c => is_digit c = true) ds -> take_digits ds = ds.
Proof. induction 1 as [|c ds Hc _ IH]; [reflexivity|]. simpl. by rewrite Hc, IH. Qed.

(** What the income cell's parse makes of one text, by its digits and
    points. *)
Lemma parse_stripped_none (t : string) :
  has_digit t = false \/ (2 <= count_dots t)%nat ->
  parse_cell (Str (strip_non_numeric t)) = PNull.
Proof.
  intros H. unfold parse_cell. rewrite floatify_stripped, chars_strip.
  destruct H as [H|H].
  - rewrite precise_xstrtod_no_digit; [reflexivity | apply kept_filter_kept |].
    by rewrite existsb_digit_filter_kept.
  - rewrite precise_xstrtod_two_dots; [reflexivity | apply kept_filter_kept |].
    by rewrite filter_dot_filter_kept.
Qed.

Lemma parse_stripped_int (t : string) :
  count_dots t = 0%nat -> (1 <= count_digits t <= 15)%nat ->
  parse_cell (Str (strip_non_numeric t))
  = PInt (digits_value t) (of_int (digits_value t)).
Proof.
  intros Hd Hn. unfold parse_cell. rewrite floatify_stripped.
  unfold int_of_text. rewrite chars_strip, filter_kept_no_dot by exact Hd.
  pose proof (filter_digits_Forall (list_ascii_of_string t)) as Hds.
  unfold count_digits in Hn. unfold digits_value.
  set (ds := filter (fun c => is_digit c = true) (list_ascii_of_string t)) in *.
  assert (Hne : ds <> []) by (intros E; rewrite E in Hn; simpl in Hn; lia).
  rewrite precise_xstrtod_digits by (done || lia). simpl fmap.
  pose proof (head_digit_kept ds [] Hds I) as Hh. rewrite app_nil_r in Hh.
  rewrite skip_space_kept, read_sign_kept by exact Hh.
  by rewrite take_digits_all.
Qed.

Lemma parse_stripped_decimal (t : string) :
  count_dots t = 1%nat -> (1 <= count_digits t <= 15)%nat ->
  parse_cell (Str (strip_non_numeric t))
  = PFloat (round64 (inject_Z (digits_value t) / inject_Z (10 ^ Z.of_nat (decimals t)))).
Proof.
  intros Hd Hn. unfold parse_cell. rewrite floatify_stripped, chars_strip.
  destruct (filter_kept_one_dot _ Hd) as (ip & Hip & E1 & E2).
  unfold count_digits in Hn. unfold digits_value, decimals.
  rewrite E1. rewrite E2 in Hn |- *.
  pose proof (filter_digits_Forall (after_dot (list_ascii_of_string t))) as Hfp.
  set (fp := filter (fun c => is_digit c = true) (after_dot (list_ascii_of_string t))) in *.
  rewrite length_app in Hn.
  assert (Hne : ip ++ fp <> []).
  { intros E. apply (f_equal length) in E. rewrite length_app in E. simpl in E. lia. }
  destruct (precise_xstrtod_decimal ip fp Hip Hfp Hne) as [-> Hfin]; [lia|].
  simpl. by rewrite round64_Fin_fin.
Qed.

(** ** The income cell, cell by cell *)

Lemma to_numeric_lookup (l : list cell) (i : nat) (c : cell) :
  l !! i = Some c ->
  to_numeric l !! i
  = Some (if seen_float (parse_cell <$> l) then as_float (parse_cell c)
          else as_int (parse_cell c)).
Proof.
  intros H. unfold to_numeric.
  destruct (seen_float _); rewrite !list_lookup_fmap, H; reflexivity.
Qed.

Lemma existsb_lookup {A} (P : A -> bool) (l : list A) (i : nat) (a : A) :
  l !! i = Some a -> P a = true -> existsb P l = true.
Proof.
  intros Hl Ha. destruct (existsb P l) eqn:E; [reflexivity|].
  rewrite (existsb_none P l E a) in Ha; [discriminate|].
  by eapply list_elem_of_lookup_2.
Qed.

Lemma forallb_lookup_false {A} (P : A -> bool) (l : list A) (i : nat) (a : A) :
  l !! i = Some a -> P a = false -> forallb P l = false.
Proof.
  revert i. induction l as [|b l IH]; intros [|i] Hl Ha; try discriminate.
  - injection Hl as ->. simpl. by rewrite Ha.
  - simpl. rewrite (IH i Hl Ha). apply andb_false_r.
Qed.

Lemma seen_float_lookup (l : list cell) (i : nat) (c : cell) :
  l !! i = Some c -> forces_float (parse_cell c) = true ->
  seen_float (parse_cell <$> l) = true.
Proof.
  intros Hl Hf. unfold seen_float.
  rewrite (existsb_lookup forces_float (parse_cell <$> l) i (parse_cell c));
    [reflexivity| |exact Hf].
  by rewrite list_lookup_fmap, Hl.
Qed.

Lemma numeric_kind_float (l : list cell) (i : nat) (c : cell) :
  l !! i = Some c -> is_int c = false -> numeric_kind l = KFloat.
Proof.
  intros Hl Hc. unfold numeric_kind. destruct l as [|c0 l]; [reflexivity|].
  by rewrite (forallb_lookup_false is_int _ i c Hl Hc).
Qed.

Lemma numeric_kind_int (l : list cell) :
  l <> [] -> forallb is_int l = true -> numeric_kind l = KInt64 \/ numeric_kind l = KUInt64.
Proof.
  intros Hne H. unfold numeric_kind. destruct l as [|c0 l]; [done|]. rewrite H.
  match goal with |- context [if ?b then KInt64 else KUInt64] => destruct b end;
    [by left | by right].
Qed.

Lemma as_int_all_int (ps : list parsed) :
  existsb forces_float ps = false -> forallb is_int (as_int <$> ps) = true.
Proof.
  induction ps as [|p ps IH]; [reflexivity|]. cbn [existsb]. intros H.
  apply orb_false_elim in H as [Hp Hps]. rewrite fmap_cons. cbn [forallb].
  rewrite (IH Hps). destruct p; try discriminate. reflexivity.
Qed.

Lemma mul_all_int (kd : kind) (k : Z) (l : list cell) :
  kd = KInt64 \/ kd = KUInt64 -> in_int64 k = true -> in_uint64 k = true ->
  forallb is_int l = true -> forallb is_int (mul_cell kd k <$> l) = true.
Proof.
  intros Hkd H1 H2. induction l as [|c l IH]; [reflexivity|]. cbn [forallb]. intros H.
  apply andb_prop in H as [Hc Hl]. rewrite fmap_cons. cbn [forallb]. rewrite (IH Hl).
  destruct c; try discriminate. destruct Hkd as [-> | ->]; simpl; by rewrite ?H1, ?H2.
Qed.

Lemma float_of_int_small (z : Z) : - 2 ^ 53 < z < 2 ^ 53 -> float_of_int z = of_int z.
Proof. intros H. unfold float_of_int, of_int. by apply round64_int. Qed.

Lemma fmul_of_int (z k : Z) :
  - 2 ^ 53 < z < 2 ^ 53 -> - 2 ^ 53 < k < 2 ^ 53 ->
  fmul (of_int z) k = Num (float_of_int (z * k)).
Proof.
  intros Hz Hk. unfold fmul, of_int. rewrite (float_of_int_small k Hk). unfold of_int.
  by rewrite inject_Z_mult_eq.
Qed.

Lemma wrap_int64_id (z : Z) : INT64_MIN <= z <= INT64_MAX -> wrap_int64 z = z.
Proof.
  unfold INT64_MIN, INT64_MAX, wrap_int64. intros H.
  rewrite Z.mod_small by lia. lia.
Qed.

Lemma wrap_uint64_id (z : Z) : 0 <= z <= UINT64_MAX -> wrap_uint64 z = z.
Proof. unfold UINT64_MAX, wrap_uint64. intros H. rewrite Z.mod_small by lia. reflexivity. Qed.

Lemma digits_value_bounds (t : string) :
  (count_digits t <= 15)%nat -> 0 <= digits_value t < 10 ^ 15.
Proof.
  intros H. unfold digits_value, count_digits in *.
  pose proof (filter_digits_Forall (list_ascii_of_string t)) as Hds.
  pose proof (num_of_lt _ Hds). pose proof (num_of_nonneg _ Hds).
  assert (10 ^ Z.of_nat (length (filter (fun c => is_digit c = true) (list_ascii_of_string t)))
          <= 10 ^ 15) by (apply Z.pow_le_mono_r; lia).
  lia.
Qed.

Lemma str_replace_lookup (l : list cell) (i : nat) (t : string) :
  l !! i = Some (Str t) -> str_replace l !! i = Some (Str (strip_non_numeric t)).
Proof. intros H. unfold str_replace. by rewrite list_lookup_fmap, H. Qed.

(** A text without a digit, or with two decimal points or more, becomes
    NaN. *)
Lemma normalize_income_none (l : list cell) (i : nat) (t : string) :
  l !! i = Some (Str t) ->
  has_digit t = false \/ (2 <= count_dots t)%nat ->
  normalize_income l !! i = Some NaN.
Proof.
  intros Hl Ht. unfold normalize_income.
  pose proof (str_replace_lookup l i t Hl) as Hs.
  pose proof (parse_stripped_none t Ht) as Hp.
  rewrite list_lookup_fmap, (to_numeric_lookup _ _ _ Hs), Hp.
  rewrite (seen_float_lookup _ _ _ Hs) by (by rewrite Hp). reflexivity.
Qed.

(** A text of up to 15 digits and no decimal point becomes the whole
    number of its digits, times 1000: as an int when the column comes out
    as a column of ints, as a float otherwise. *)
Lemma normalize_income_int (l : list cell) (i : nat) (t : string) :
  l !! i = Some (Str t) ->
  count_dots t = 0%nat -> (1 <= count_digits t <= 15)%nat ->
  normalize_income l !! i
  = Some (if forallb is_int (normalize_income l)
          then Int (digits_value t * 1000)
          else Num (float_of_int (digits_value t * 1000))).
Proof.
  intros Hl Hd Hn. unfold normalize_income.
  pose proof (str_replace_lookup l i t Hl) as Hs.
  pose proof (parse_stripped_int t Hd Hn) as Hp.
  pose proof (digits_value_bounds t ltac:(lia)) as Hb.
  pose proof pow10_15 as H15.
  pose proof (to_numeric_lookup _ _ _ Hs) as Ht. rewrite Hp in Ht.
  rewrite list_lookup_fmap, Ht. unfold to_numeric in *.
  destruct (seen_float (parse_cell <$> str_replace l)) eqn:Hsf.
  - cbn [as_float] in *.
    rewrite (numeric_kind_float _ i _ Ht) by reflexivity.
    cbn [mul_cell option_map option_fmap fmap]. rewrite fmul_of_int by lia.
    rewrite (forallb_lookup_false is_int _ i (Num (float_of_int (digits_value t * 1000))));
      [reflexivity| |reflexivity].
    rewrite list_lookup_fmap, Ht. cbn [mul_cell option_map option_fmap fmap].
    by rewrite fmul_of_int by lia.
  - cbn [as_int] in *.
    unfold seen_float in Hsf. apply orb_false_elim in Hsf as [Hff _].
    pose proof (as_int_all_int _ Hff) as Hall.
    assert (Hne : as_int <$> (parse_cell <$> str_replace l) <> [])
      by (intros E; rewrite E in Ht; discriminate).
    pose proof (numeric_kind_int _ Hne Hall) as Hk.
    rewrite (mul_all_int _ 1000 _ Hk eq_refl eq_refl Hall).
    cbn [option_map option_fmap fmap]. f_equal.
    destruct Hk as [-> | ->]; cbn [mul_cell]; change (in_int64 1000) with true;
      change (in_uint64 1000) with true; cbv iota; f_equal.
    + rewrite wrap_int64_id; [reflexivity|]. unfold INT64_MIN, INT64_MAX. lia.
    + rewrite wrap_uint64_id; [reflexivity|]. unfold UINT64_MAX. lia.
Qed.

(** A text of up to 15 digits and one decimal point becomes the float
    nearest to its decimal number, times 1000 in float64. *)
Lemma normalize_income_decimal (l : list cell) (i : nat) (t : string) :
  l !! i = Some (Str t) ->
  count_dots t = 1%nat -> (1 <= count_digits t <= 15)%nat ->
  normalize_income l !! i
  = Some (fmul (round64 (inject_Z (digits_value t)
                         / inject_Z (10 ^ Z.of_nat (decimals t)))) 1000).
Proof.
  intros Hl Hd Hn. unfold normalize_income.
  pose proof (str_replace_lookup l i t Hl) as Hs.
  pose proof (parse_stripped_decimal t Hd Hn) as Hp.
  pose proof (to_numeric_lookup _ _ _ Hs) as Ht. rewrite Hp in Ht.
  rewrite (seen_float_lookup _ _ _ Hs) in Ht by (by rewrite Hp).
  cbn [as_float] in Ht.
  rewrite list_lookup_fmap, Ht.
  rewrite (numeric_kind_float _ i _ Ht) by reflexivity. reflexivity.
Qed.

Lemma normalize_numeric_text_Ok (col : string) (df : DataFrame) (s : Series) :
  getitem col df = Ok s -> has_str_accessor s = true ->
  exists df',
    run (normalize_numeric_text col 1000) df = Ok df'
    /\ getitem col df' = Ok (mkSeries Float64 (normalize_income (values s))).
Proof.
  intros Hg Ha. unfold normalize_numeric_text. cbn [run exec].
  rewrite (strip_to_numeric_Ok col df s Hg Ha), bind_Ok.
  pose proof (getitem_set_column_eq col
                (mkSeries Float64 (to_numeric (str_replace (values s)))) s df Hg) as Hg'.
  rewrite (imul_Ok col 1000 _ _ Hg'), bind_Ok.
  eexists. split; [reflexivity|].
  erewrite getitem_set_column_eq by exact Hg'. reflexivity.
Qed.

(** ** C9: the income cell on text *)

(** C9 (amended).  In the income cell of the notebook, run on any table
    whose column is an object column, a text cell of the column ends as
    follows.  A text with no digit at all, such as "unknown", and a text
    with two decimal points or more, such as "1.2.3", becomes missing.  A
    text of ASCII characters with no decimal point and one to 15 digits
    becomes the whole number its digits form, multiplied by 1000 whether or
    not the text had a suffix: exactly, as an int, when the column comes
    out as a column of ints, and as the nearest float otherwise; so
    "100,000" becomes 100000000.  A text of ASCII characters with one
    decimal point and one to 15 digits becomes the float nearest to the
    decimal number its digits and its point form, multiplied by 1000 in
    float64.  Longer texts are outside these laws: in a column of its own
    the 17 digits of "10000000000000000" become a negative number, because
    the product wraps around in int64. *)
Theorem C9_income_cell_on_text :
  (forall (col : string) (df : DataFrame) (s : Series) (i : nat) (t : string),
      getitem col df = Ok s -> dty s = Object -> values s !! i = Some (Str t) ->
      exists df' s',
        run (normalize_numeric_text col 1000) df = Ok df'
        /\ getitem col df' = Ok s'
        /\ length (values s') = length (values s)
        /\ (has_digit t = false \/ (2 <= count_dots t)%nat ->
            values s' !! i = Some NaN)
        /\ (ascii_text t = true -> count_dots t = 0%nat ->
            (1 <= count_digits t <= 15)%nat ->
            values s' !! i
            = Some (if forallb is_int (values s')
                    then Int (digits_value t * 1000)
                    else Num (float_of_int (digits_value t * 1000))))
        /\ (ascii_text t = true -> count_dots t = 1%nat ->
            (1 <= count_digits t <= 15)%nat ->
            values s' !! i
            = Some (fmul (round64 (inject_Z (digits_value t)
                                   / inject_Z (10 ^ Z.of_nat (decimals t)))) 1000)))
  /\ (column_values "annual_income" <$>
        match run (normalize_numeric_text "annual_income" 1000) messy_df with
        | Ok df => Some df
        | Raise _ => None
        end)
     = Some (Some [Num (Fin 60000000); Num (Fin 90000000); NaN; Num (Fin 100000000);
                   Num (Fin 40000); Num (Fin 75000); NaN])
  /\ normalize_income [Str "100,000"] = [Int 100000000]
  /\ normalize_income [Str "1.5k"; Str "100,000"] = [Num (Fin 1500); Num (Fin 100000000)]
  /\ normalize_income [Str "unknown"] = [NaN]
  /\ normalize_income [Str "1.2.3"] = [NaN]
  /\ normalize_income [Str "10000000000000000"] = [Int (-8446744073709551616)].
Proof.
  split; [|repeat split; vm_compute; reflexivity].
  intros col df s i t Hg Hd Hi.
  assert (Ha : has_str_accessor s = true).
  { unfold has_str_accessor. rewrite Hd.
    rewrite (existsb_lookup is_str _ i _ Hi eq_refl). apply orb_true_r. }
  destruct (normalize_numeric_text_Ok col df s Hg Ha) as (df' & Hr & Hg').
  exists df', (mkSeries Float64 (normalize_income (values s))).
  split; [exact Hr|]. split; [exact Hg'|]. cbn [values].
  split.
  { unfold normalize_income, str_replace. cbv zeta.
    by rewrite length_fmap, to_numeric_length, length_fmap. }
  split; [by apply normalize_income_none|].
  split; [intros _; by apply normalize_income_int | intros _; by apply normalize_income_decimal].
Qed.

Lemma C9_income_cell_on_text_witness :
  exists df' s',
    run (normalize_numeric_text "annual_income" 1000) messy_df = Ok df'
    /\ getitem "annual_income" df' = Ok s'
    /\ values s' !! 3%nat = Some (Num (Fin 100000000)).
Proof.
  destruct (proj1 C9_income_cell_on_text "annual_income" messy_df
              (mkSeries Object [Str "60,000"; Str "90,000"; NaN; Str "100,000"; Str "40k";
                                Str "75k"; Str "unknown"]) 3%nat "100,000"
              eq_refl eq_refl eq_refl)
    as (df' & s' & Hr & Hg & _ & _ & Hint & _).
  exists df', s'. split; [exact Hr|]. split; [exact Hg|].
  rewrite (Hint eq_refl eq_refl ltac:(vm_compute; lia)).
  vm_compute in Hr. injection Hr as <-. vm_compute in Hg. injection Hg as <-.
  vm_compute. reflexivity.
Defined.

(** C9 (as stated, refuted).  The text "1.2.3" contains digits, yet the
    income cell makes it missing: deleting the other characters leaves
    "1.2.3", which is not a number.  And the 17 digits of
    "10000000000000000" do not become that number times 1000: alone in
    their column they are parsed to an int64, whose product wraps around. *)
Lemma C9_counterexample :
  has_digit "1.2.3" = true
  /\ strip_non_numeric "1.2.3" = "1.2.3"
  /\ normalize_income [Str "1.2.3"] = [NaN]
  /\ has_digit "10000000000000000" = true
  /\ digits_value "10000000000000000" * 1000 = 10000000000000000000
  /\ normalize_income [Str "10000000000000000"] = [Int (-8446744073709551616)].
Proof. repeat split; vm_compute; reflexivity. Qed.

(** ** The parse of a cell *)








(** ** C4: the coercion of a column *)










(** ** C5: the median and the imputation *)

#[global] Instance fle_total : Total fle.
Proof.
  intros [x| |] [y| |]; unfold fle; simpl; auto.
  destruct (Qlt_le_dec x y) as [H|H].
  - left. apply Qle_bool_iff. by apply Qlt_le_weak.
  - right. by apply Qle_bool_iff.
Qed.

Lemma median_is_median (l : list cell) : is_median (dropna l) (median l).
Proof.
  unfold median, is_median.
  pose proof (merge_sort_Permutation fle (dropna l)) as Hp.
  pose proof (Sorted_merge_sort fle (dropna l)) as Hs.
  pose proof (Permutation_length Hp) as Hlen.
  destruct (dropna l) as [|v vs] eqn:Hd.
  - reflexivity.
  - set (s := merge_sort fle (v :: vs)) in *.
    exists s. split; [exact Hp|]. split; [exact Hs|].
    simpl in Hlen. cbv zeta.
    destruct (length s) as [|n] eqn:Hn; [discriminate|].
    destruct (Nat.odd (S n)) eqn:Hodd.
    + destruct (s !! (S n / 2)%nat) as [a|] eqn:Ha; [reflexivity|].
      apply lookup_ge_None in Ha.
      pose proof (Nat.div_lt (S n) 2). lia.
    + destruct (s !! (S n / 2 - 1)%nat) as [a|] eqn:Ha.
      * destruct (s !! (S n / 2)%nat) as [b|] eqn:Hb; [by exists a, b|].
        apply lookup_ge_None in Hb. pose proof (Nat.div_lt (S n) 2). lia.
      * apply lookup_ge_None in Ha. pose proof (Nat.div_lt (S n) 2). lia.
Qed.

(** The values a median is taken over are the non-missing cells, in the
    order of the column. *)
Lemma dropna_non_missing (l : list cell) :
  existsb is_str l = false ->
  Forall2 (fun c x => c = Num x \/ exists z, c = Int z /\ x = float_of_int z)
          (filter (fun c => isna c = false) l) (dropna l).
Proof.
  induction l as [|c l IH]; [constructor|]. cbn [existsb]. intros H.
  apply orb_false_elim in H as [Hc Hl]. specialize (IH Hl).
  destruct c as [|x|t|z]; try discriminate.
  - rewrite filter_cons_False by (simpl; congruence). exact IH.
  - rewrite filter_cons_True by reflexivity.
    change (dropna (Num x :: l)) with (x :: dropna l). constructor; [by left | exact IH].
  - rewrite filter_cons_True by reflexivity.
    change (dropna (Int z :: l)) with (float_of_int z :: dropna l).
    constructor; [right; by exists z | exact IH].
Qed.

Lemma fillna_lookup_missing (m : cell) (l : list cell) (i : nat) :
  l !! i = Some NaN -> fillna m l !! i = Some m.
Proof. intros H. unfold fillna. by rewrite list_lookup_fmap, H. Qed.

Lemma fillna_lookup_value (m : cell) (l : list cell) (i : nat) (c : cell) :
  l !! i = Some c -> isna c = false -> fillna m l !! i = Some c.
Proof.
  intros H Hc. unfold fillna. rewrite list_lookup_fmap, H. simpl.
  unfold fillna_cell. by rewrite Hc.
Qed.

(** C5 (amended).  [impute_missing], which has one strategy, the median,
    run on any table whose column holds no text and no int beyond the
    integer dtypes: it returns a table in which every missing cell of the
    column holds the median of the column at the time of the call and
    every other cell is as it was.  The median
    is taken over the non-missing cells only: it is the middle one of their
    values in ascending order, or the mean of the two middle ones.  On
    [25, 30, missing, 35, 22] the missing cell becomes 27.5, the median of
    [25, 30, 35, 22]. *)
Theorem C5_impute_median_of_non_missing :
  (forall (col : string) (df : DataFrame) (s : Series),
      getitem col df = Ok s -> existsb is_str (values s) = false ->
      existsb is_big_int (values s) = false ->
      exists df' s',
        impute_missing col df = Ok df'
        /\ getitem col df' = Ok s'
        /\ dty s' = dty s
        /\ length (values s') = length (values s)
        /\ (forall i, values s !! i = Some NaN ->
              values s' !! i = Some (median (values s)))
        /\ (forall i c, values s !! i = Some c -> isna c = false ->
              values s' !! i = Some c)
        /\ is_median (dropna (values s)) (median (values s))
        /\ Forall2 (fun c x => c = Num x \/ exists z, c = Int z /\ x = float_of_int z)
                   (filter (fun c => isna c = false) (values s)) (dropna (values s)))
  /\ (column_values "age" <$>
        match impute_missing "age"
                (DataFrame_of_dict
                   [("age", [Num (Fin 25); Num (Fin 30); NaN; Num (Fin 35); Num (Fin 22)])]) with
        | Ok df => Some df
        | Raise _ => None
        end)
     = Some (Some [Num (Fin 25); Num (Fin 30); Num (Fin (55 # 2)); Num (Fin 35); Num (Fin 22)])
  /\ median [Num (Fin 25); Num (Fin 30); Num (Fin 35); Num (Fin 22)] = Num (Fin (55 # 2)).
Proof.
  split; [|repeat split; vm_compute; reflexivity].
  intros col df s Hg Hs _.
  exists (set_column col (mkSeries (dty s) (impute_values (values s))) df),
         (mkSeries (dty s) (impute_values (values s))).
  split; [by apply impute_missing_Ok|].
  split; [by eapply getitem_set_column_eq|]. cbn [values dty].
  split; [reflexivity|].
  split; [apply impute_values_length|].
  split; [intros i Hi; by apply fillna_lookup_missing|].
  split; [intros i c Hi Hc; by apply fillna_lookup_value|].
  split; [apply median_is_median | by apply dropna_non_missing].
Qed.

Lemma C5_impute_median_of_non_missing_witness :
  exists df' s',
    impute_missing "age"
      (DataFrame_of_dict [("age", [Num (Fin 25); Num (Fin 30); NaN; Num (Fin 35); Num (Fin 22)])])
    = Ok df'
    /\ getitem "age" df' = Ok s'
    /\ values s' !! 2%nat = Some (Num (Fin (55 # 2))).
Proof.
  destruct (proj1 C5_impute_median_of_non_missing "age"
              (DataFrame_of_dict
                 [("age", [Num (Fin 25); Num (Fin 30); NaN; Num (Fin 35); Num (Fin 22)])])
              (mkSeries Float64 [Num (Fin 25); Num (Fin 30); NaN; Num (Fin 35); Num (Fin 22)])
              eq_refl eq_refl eq_refl)
    as (df' & s' & Hr & Hg & _ & _ & Hm & _).
  exists df', s'. split; [exact Hr|]. split; [exact Hg|].
  rewrite (Hm 2%nat eq_refl). vm_compute. reflexivity.
Defined.

(** C5 (as stated, refuted).  The statement takes no strategy: on
    [1, 2, missing, 6] it fills in 2, the median, where the mean strategy
    asks for 3. *)
Lemma C5_counterexample :
  mean [Num (Fin 1); Num (Fin 2); NaN; Num (Fin 6)] = Num (Fin 3)
  /\ (column_values "age" <$>
        match impute_missing "age"
                (DataFrame_of_dict [("age", [Num (Fin 1); Num (Fin 2); NaN; Num (Fin 6)])]) with
        | Ok df => Some df
        | Raise _ => None
        end)
     = Some (Some [Num (Fin 1); Num (Fin 2); Num (Fin 2); Num (Fin 6)]).
Proof. split; vm_compute; reflexivity. Qed.

(** ** C8: runs compose *)




(** ** What the income cell never gives *)

Lemma to_numeric_lookup_null_cell (l : list cell) (i : nat) :
  l !! i = Some NaN -> to_numeric l !! i = Some NaN.
Proof.
  intros Hl. rewrite (to_numeric_lookup l i NaN Hl).
  rewrite (seen_float_lookup l i NaN Hl) by reflexivity. reflexivity.
Qed.

Lemma round64_not_negative (q : Q) : (0 <= q)%Q -> not_negative (round64 q).
Proof.
  intros Hq. destruct q as [n d]. unfold round64. cbn [Qnum Qden].
  destruct n as [|p|p].
  - simpl. apply Qle_refl.
  - destruct (Qle_bool _ _); [exact I|]. simpl. apply round_mag_nonneg.
  - unfold Qle in Hq. simpl in Hq. lia.
Qed.

Lemma fin_round64_nonneg (q : Q) : (0 <= q)%Q -> (0 <= fin (round64 q))%Q.
Proof.
  intros Hq. pose proof (round64_not_negative q Hq) as H.
  destruct (round64 q); simpl in *; [exact H | apply Qle_refl | apply Qle_refl].
Qed.

Lemma push_digit_nonneg (number : Q) (c : ascii) :
  (0 <= number)%Q -> is_digit c = true -> (0 <= push_digit number c)%Q.
Proof.
  intros Hn Hc. unfold push_digit. apply fin_round64_nonneg.
  pose proof (digit_val_nonneg c Hc).
  assert (0 <= fin (round64 (number * 10)))%Q.
  { apply fin_round64_nonneg. apply Qmult_le_0_compat; [exact Hn | discriminate]. }
  assert (0 <= inject_Z (digit_val c))%Q.
  { change 0%Q with (inject_Z 0). by rewrite <- Zle_Qle. }
  lra.
Qed.

Lemma read_digits_nonneg (l : list ascii) (number : Q) (nd : nat) (ex : Z) :
  (0 <= number)%Q -> (0 <= (read_digits number nd ex l).1.1.1)%Q.
Proof.
  revert number nd ex. induction l as [|c l IH]; intros number nd ex Hn; [exact Hn|].
  simpl. destruct (is_digit c) eqn:Hc; [|exact Hn].
  destruct (nd <? 17)%nat; apply IH; [by apply push_digit_nonneg | exact Hn].
Qed.

Lemma read_decimals_nonneg (l : list ascii) (number : Q) (nd k : nat) :
  (0 <= number)%Q -> (0 <= (read_decimals number nd k l).1.1.1)%Q.
Proof.
  revert number nd k. induction l as [|c l IH]; intros number nd k Hn; [exact Hn|].
  simpl. destruct (is_digit c) eqn:Hc; [|exact Hn].
  destruct (nd <? 17)%nat; apply IH; [by apply push_digit_nonneg | exact Hn].
Qed.

Lemma pow10_64_nonneg (k : Z) : (0 <= pow10_64 k)%Q.
Proof.
  unfold pow10_64. apply fin_round64_nonneg.
  change 0%Q with (inject_Z 0). rewrite <- Zle_Qle. apply Z.pow_nonneg. lia.
Qed.

Lemma Qdiv_nonneg (a b : Q) : (0 <= a)%Q -> (0 <= b)%Q -> (0 <= a / b)%Q.
Proof.
  intros Ha Hb. unfold Qdiv. apply Qmult_le_0_compat; [exact Ha|].
  by apply Qinv_le_0_compat.
Qed.

Lemma scale10_not_negative (number : Q) (exponent : Z) :
  (0 <= number)%Q -> not_negative (scale10 number exponent).
Proof.
  intros Hn. unfold scale10.
  destruct (308 <? exponent); [exact I|].
  destruct (0 <? exponent).
  { apply round64_not_negative, Qmult_le_0_compat; [exact Hn | apply pow10_64_nonneg]. }
  destruct (exponent <? -308).
  - destruct (exponent <? -616); [simpl; apply Qle_refl|].
    apply round64_not_negative, Qdiv_nonneg; [|apply pow10_64_nonneg].
    apply fin_round64_nonneg, Qdiv_nonneg; [exact Hn | apply pow10_64_nonneg].
  - apply round64_not_negative, Qdiv_nonneg; [exact Hn | apply pow10_64_nonneg].
Qed.

(** Without a minus sign the scanner gives no negative number. *)
Lemma precise_xstrtod_nonneg (l : list ascii) (q : Q) (b : bool) :
  (read_sign (skip_space l)).1 = false ->
  precise_xstrtod l = Some (q, b) -> (0 <= q)%Q.
Proof.
  unfold precise_xstrtod. intros Hs.
  destruct (read_sign (skip_space l)) as [negative l1]. cbn [fst] in Hs. subst negative.
  pose proof (read_digits_nonneg l1 0 0 0 (Qle_refl 0)) as Hd.
  destruct (read_digits 0 0 0 l1) as [[[n nd] ex] l2]. cbn [fst] in Hd.
  assert (Hpoint : forall n' nd' ex' sp l',
             (0 <= n')%Q ->
             (if (nd' =? 0)%nat then None
              else
                let '(exponent, seen_exp, l0) := read_exponent ex' l' in
                let x := scale10 n' exponent in
                if is_inf x then None
                else match skip_space l0 with
                     | [] => Some (fin x, negb sp && negb seen_exp)
                     | _ :: _ => None
                     end) = Some (q, b) -> (0 <= q)%Q).
  { intros n' nd' ex' sp l' Hn' H.
    destruct (nd' =? 0)%nat; [discriminate|].
    destruct (read_exponent ex' l') as [[exponent seen_exp] l0].
    cbv zeta in H.
    pose proof (scale10_not_negative n' exponent Hn') as Hx.
    destruct (scale10 n' exponent) as [x| |]; simpl in H; try discriminate.
    destruct (skip_space l0); [|discriminate]. injection H as <- _. exact Hx. }
  destruct l2 as [|c l3]; [apply Hpoint; exact Hd|].
  destruct (is_dot c); [|apply Hpoint; exact Hd].
  pose proof (read_decimals_nonneg l3 n nd 0 Hd) as Hm.
  destruct (read_decimals n nd 0 l3) as [[[m nd'] k] l4]. cbn [fst] in Hm.
  apply Hpoint. exact Hm.
Qed.

Lemma parse_stripped_not_negative (t : string) :
  match parse_cell (Str (strip_non_numeric t)) with
  | PNull => True
  | PFloat x => not_negative x
  | PInt _ f => not_negative f
  end.
Proof.
  unfold parse_cell. rewrite floatify_stripped.
  destruct (precise_xstrtod _) as [[q b]|] eqn:E; [|exact I].
  assert (Hq : (0 <= q)%Q).
  { apply (precise_xstrtod_nonneg _ q b) in E; [exact E|].
    rewrite chars_strip.
    pose proof (kept_filter_kept (list_ascii_of_string t)) as Hk.
    assert (Hh : match filter (fun c => kept c = true) (list_ascii_of_string t) with
                 | [] => True | c :: _ => kept c = true end)
      by (destruct Hk; done).
    by rewrite skip_space_kept, read_sign_kept. }
  simpl. destruct b; exact Hq.
Qed.

Lemma fmul_1000_not_negative (x : float64) :
  not_negative x -> missing_or_int_or_nonneg (fmul x 1000).
Proof.
  intros Hx. unfold fmul.
  assert (E : float_of_int 1000 = Fin (inject_Z 1000)) by (apply round64_int; lia).
  rewrite E. destruct x as [q| |]; [|exact I | destruct Hx].
  simpl. apply round64_not_negative, Qmult_le_0_compat; [exact Hx | discriminate].
Qed.

Lemma as_float_stripped_not_negative (c : cell) :
  match as_float (parse_cell (str_replace_cell c)) with
  | NaN => True
  | Num x => not_negative x
  | _ => False
  end.
Proof.
  destruct c as [|x|s|z]; try exact I. cbn [str_replace_cell].
  pose proof (parse_stripped_not_negative s) as H.
  destruct (parse_cell (Str (strip_non_numeric s))); exact H.
Qed.

Lemma forallb_is_int_elem (l : list cell) (c : cell) :
  forallb is_int l = true -> c ∈ l -> is_int c = true.
Proof.
  induction l as [|a l IH]; intros H Hc; [by apply elem_of_nil in Hc|].
  cbn [forallb] in H. apply andb_prop in H as [Ha Hl].
  apply elem_of_cons in Hc as [->|Hc]; [exact Ha | by apply IH].
Qed.

(** After the income cell a cell is missing, or an int, or a float that
    is not negative. *)
Lemma normalize_income_not_negative (l : list cell) :
  Forall missing_or_int_or_nonneg (normalize_income l).
Proof.
  unfold normalize_income. cbv zeta. unfold to_numeric.
  destruct (seen_float (parse_cell <$> str_replace l)) eqn:Hsf.
  - assert (Hk : numeric_kind (as_float <$> (parse_cell <$> str_replace l)) = KFloat).
    { unfold numeric_kind. destruct (str_replace l) as [|c r]; [reflexivity|].
      rewrite !fmap_cons. cbn [forallb]. by destruct (parse_cell c). }
    rewrite Hk. unfold str_replace. rewrite <- !list_fmap_compose.
    apply Forall_fmap, Forall_forall. intros c _. cbn [compose].
    pose proof (as_float_stripped_not_negative c) as H.
    destruct (as_float (parse_cell (str_replace_cell c))) as [|x|s|z]; try done.
    cbn [mul_cell]. by apply fmul_1000_not_negative.
  - unfold seen_float in Hsf. apply orb_false_elim in Hsf as [Hff _].
    pose proof (as_int_all_int _ Hff) as Hall.
    destruct (as_int <$> (parse_cell <$> str_replace l)) as [|c0 t0] eqn:Et; [constructor|].
    rewrite <- Et in *.
    assert (Hne : as_int <$> (parse_cell <$> str_replace l) <> [])
      by (rewrite Et; discriminate).
    pose proof (numeric_kind_int _ Hne Hall) as Hk.
    pose proof (mul_all_int _ 1000 _ Hk eq_refl eq_refl Hall) as Hm.
    apply Forall_forall. intros c Hc.
    pose proof (forallb_is_int_elem _ c Hm Hc) as Hi.
    by destruct c.
Qed.

(** X10.  After the two statements of the income cell, every cell of the
    column is missing, or an int, or a float that is not negative: signs
    and exponent letters are deleted with the other characters before the
    parse, so no text gives a negative float.  (Ints occur when the whole
    column comes out as ints, and there the product can wrap around.)  A
    cell that already held a number when the cell ran is missing
    afterwards, since the [.str] methods answer NaN for it. *)
Theorem X10_income_cell_leaves_no_negative_float :
  forall (col : string) (df df' : DataFrame) (s : Series),
    getitem col df = Ok s ->
    run (normalize_numeric_text col 1000) df = Ok df' ->
    exists l',
      column_values col df' = Some l'
      /\ length l' = length (values s)
      /\ Forall missing_or_int_or_nonneg l'
      /\ (forall i x, values s !! i = Some (Num x) -> l' !! i = Some NaN)
      /\ (forall i z, values s !! i = Some (Int z) -> l' !! i = Some NaN)
      /\ (forall i, values s !! i = Some NaN -> l' !! i = Some NaN).
Proof.
  intros col df df' s Hg H.
  exists (normalize_income (values s)).
  split; [by eapply normalize_numeric_text_values|].
  split.
  { unfold normalize_income, str_replace. cbv zeta.
    by rewrite length_fmap, to_numeric_length, length_fmap. }
  split; [apply normalize_income_not_negative|].
  assert (Hnone : forall i c, values s !! i = Some c -> is_str c = false ->
                              normalize_income (values s) !! i = Some NaN).
  { intros i c Hi Hc. unfold normalize_income. cbv zeta.
    assert (Hs : str_replace (values s) !! i = Some NaN).
    { unfold str_replace. rewrite list_lookup_fmap, Hi. by destruct c. }
    by rewrite list_lookup_fmap, (to_numeric_lookup_null_cell _ _ Hs). }
  split; [intros i x Hi; by apply (Hnone i (Num x))|].
  split; [intros i z Hi; by apply (Hnone i (Int z)) | intros i Hi; by apply (Hnone i NaN)].
Qed.

Lemma X10_income_cell_leaves_no_negative_float_witness :
  exists df' l',
    run (normalize_numeric_text "pay" 1000)
        (DataFrame_of_dict [("pay", [Str "-5"; Str "1e3"; Num (of_int 7)])]) = Ok df'
    /\ column_values "pay" df' = Some l'
    /\ Forall missing_or_int_or_nonneg l'
    /\ l' !! 2%nat = Some NaN.
Proof.
  destruct (run (normalize_numeric_text "pay" 1000)
              (DataFrame_of_dict [("pay", [Str "-5"; Str "1e3"; Num (of_int 7)])]))
    as [df'|e] eqn:H; [|vm_compute in H; discriminate].
  destruct (X10_income_cell_leaves_no_negative_float "pay"
              (DataFrame_of_dict [("pay", [Str "-5"; Str "1e3"; Num (of_int 7)])]) df'
              (mkSeries Object [Str "-5"; Str "1e3"; Num (of_int 7)]) eq_refl H)
    as (l' & Hl' & _ & Hall & Hnum & _).
  exists df', l'. split; [reflexivity|]. split; [exact Hl'|]. split; [exact Hall|].
  exact (Hnum 2%nat (of_int 7) eq_refl).
Defined.

(** ** What the notebook leaves in each column *)

(** X13.  Whenever the notebook's statements run to the end, the final
    table has the input labels in their order without "monthly_salary"; its
    age column is numeric and holds no string; its income column is
    numeric and every cell of it is missing, or an int, or a float that is
    not negative; its gender column has no missing cell and no "Other"; and
    its country column, if there is one, has no missing cell. *)
Theorem X13_notebook_postconditions :
  forall (df df' : DataFrame),
    run notebook df = Ok df' ->
    (columns df').*1 = filter (fun l => l ≠ "monthly_salary") (columns df).*1
    /\ (exists sa, getitem "age" df' = Ok sa /\ dty sa = Float64
                   /\ existsb is_str (values sa) = false)
    /\ (exists si, getitem "annual_income" df' = Ok si /\ dty si = Float64
                   /\ Forall missing_or_int_or_nonneg (values si))
    /\ (exists sg, getitem "gender" df' = Ok sg /\ existsb isna (values sg) = false
                   /\ Str "Other" ∉ values sg)
    /\ (forall sc, getitem "country" df' = Ok sc -> existsb isna (values sc) = false).
Proof.
  intros df df' H.
  unfold notebook in H. cbn [run exec] in H.
  inv_bind H. rename a into d1, Ha into H1.
  inv_bind H. rename a into d2, Ha into H2.
  inv_bind H. rename a into d3, Ha into H3.
  inv_bind H. rename a into d4, Ha into H4.
  inv_bind H. rename a into d5, Ha into H5.
  inv_bind H. rename a into d6, Ha into H6.
  inv_bind H. rename a into d7, Ha into H7.
  injection H as <-.
  split; [|split; [|split; [|split]]].
  - (* labels *)
    rewrite (rewrites_column_labels "gender" d6 d7) by (do 4 right; eauto).
    rewrite (drop_column_labels _ _ _ H6).
    rewrite (rewrites_column_labels "annual_income" d4 d5) by (do 3 right; left; eauto).
    rewrite (rewrites_column_labels "annual_income" d3 d4) by (do 2 right; left; eauto).
    rewrite (fill_categorical_labels _ _ _ H3).
    rewrite (rewrites_column_labels "age" d1 d2) by (right; left; eauto).
    rewrite (rewrites_column_labels "age" df d1) by (left; eauto).
    reflexivity.
  - (* age *)
    rewrite (fun Hne => relabel_category_other "age" _ _ _ _ _ Hne H7) by discriminate.
    rewrite (fun Hne => drop_column_other "age" _ _ _ Hne H6) by discriminate.
    rewrite (fun Hne => imul_other "age" _ _ _ _ Hne H5) by discriminate.
    rewrite (fun Hne => strip_to_numeric_other "age" _ _ _ Hne H4) by discriminate.
    rewrite (fill_categorical_getitem _ "age" _ _ H3).
    unfold coerce_numeric in H1. inv_bind H1. injection H1 as <-.
    unfold impute_missing in H2.
    erewrite getitem_set_column_eq in H2 by exact Ha. rewrite bind_Ok in H2.
    simpl values in H2. rewrite no_str_convertible in H2 by apply coerce_values_no_str.
    injection H2 as <-.
    erewrite getitem_set_column_eq by (by eapply getitem_set_column_eq).
    eexists. split; [reflexivity|]. simpl.
    split; [reflexivity|]. apply impute_values_no_str, coerce_values_no_str.
  - (* income *)
    rewrite (fun Hne => relabel_category_other "annual_income" _ _ _ _ _ Hne H7) by discriminate.
    rewrite (fun Hne => drop_column_other "annual_income" _ _ _ Hne H6) by discriminate.
    unfold strip_to_numeric in H4. inv_bind H4.
    destruct (has_str_accessor a); [|discriminate]. injection H4 as <-.
    unfold imul in H5.
    erewrite getitem_set_column_eq in H5 by exact Ha. rewrite bind_Ok in H5.
    injection H5 as <-.
    erewrite getitem_set_column_eq by (by eapply getitem_set_column_eq).
    eexists. split; [reflexivity|]. simpl. split; [reflexivity|].
    apply normalize_income_not_negative.
  - (* gender *)
    unfold relabel_category in H7. inv_bind H7. injection H7 as <-.
    assert (Hg := Ha).
    rewrite (fun Hne => drop_column_other "gender" _ _ _ Hne H6) in Ha by discriminate.
    rewrite (fun Hne => imul_other "gender" _ _ _ _ Hne H5) in Ha by discriminate.
    rewrite (fun Hne => strip_to_numeric_other "gender" _ _ _ Hne H4) in Ha by discriminate.
    rewrite (fill_categorical_getitem _ "gender" _ _ H3) in Ha.
    destruct (getitem "gender" d2) as [sg0|e]; [|discriminate]. injection Ha as <-.
    erewrite getitem_set_column_eq by exact Hg.
    eexists. split; [reflexivity|]. simpl values.
    rewrite (fillna_column_values _ _ "Other") by reflexivity. simpl.
    split; [|by apply replace_removes].
    apply replace_no_missing; [reflexivity|]. by apply fillna_no_missing.
  - (* country *)
    intros sc.
    rewrite (fun Hne => relabel_category_other "country" _ _ _ _ _ Hne H7) by discriminate.
    rewrite (fun Hne => drop_column_other "country" _ _ _ Hne H6) by discriminate.
    rewrite (fun Hne => imul_other "country" _ _ _ _ Hne H5) by discriminate.
    rewrite (fun Hne => strip_to_numeric_other "country" _ _ _ Hne H4) by discriminate.
    rewrite (fill_categorical_getitem _ "country" _ _ H3).
    destruct (getitem "country" d2) as [sc0|e]; [|discriminate]. intros [= <-].
    rewrite (fillna_column_values _ _ "Unknown") by reflexivity. simpl.
    by apply fillna_no_missing.
Qed.

Lemma X13_notebook_postconditions_witness :
  exists df',
    run notebook messy_df = Ok df'
    /\ (columns df').*1 = ["name"; "age"; "gender"; "country"; "annual_income"].
Proof.
  destruct (run notebook messy_df) as [df'|e] eqn:H; [|vm_compute in H; discriminate].
  exists df'. split; [reflexivity|].
  rewrite (proj1 (X13_notebook_postconditions messy_df df' H)).
  vm_compute. reflexivity.
Defined.
